(** * go_di_architecture: the module service, its in-memory repository,
      the response envelope, the handler's error table and the exception
      middleware, embedded in Rocq.

    Go values are modelled as the program has them: a [string] is a sequence
    of bytes and [len] counts bytes; [int] is a 64-bit signed integer whose
    increment wraps; a [*module.Module] is a location in a heap of entities,
    so that the pointer the repository stores is the very object its caller
    holds; a Go map is a [gmap]; a [(value, error)] result is a pair of
    options, [None] standing for [nil]. *)

From Stdlib Require Import ZArith Ascii String List Bool.
From stdpp Require Import gmap strings list fin_maps pretty.

Local Open Scope Z_scope.

(* ===================================================================== *)
(** ** The Go runtime and standard library functions the program calls    *)
(* ===================================================================== *)

(** [int]: 64-bit two's complement. *)
Definition minInt : Z := - 2 ^ 63.
Definition maxInt : Z := 2 ^ 63 - 1.

Definition wrapInt (z : Z) : Z := (z + 2 ^ 63) mod 2 ^ 64 - 2 ^ 63.

(** A rune is a Unicode code point. *)
Definition rune : Type := Z.

(** [s[i]], the byte at index [i] (callers stay within [0, len s)). *)
Definition byteOf (c : ascii) : Z := Z.of_N (N_of_ascii c).

Definition byteAt (s : string) (i : Z) : Z :=
  if i <? 0 then 0
  else match String.get (Z.to_nat i) s with
       | Some c => byteOf c
       | None => 0
       end.

(** [len(s)] *)
Definition len (s : string) : Z := Z.of_nat (String.length s).

(** [s[lo:hi]] *)
Definition slice (s : string) (lo hi : Z) : string :=
  String.substring (Z.to_nat lo) (Z.to_nat (hi - lo)) s.

(** [s[lo:]] *)
Definition sliceFrom (s : string) (lo : Z) : string := slice s lo (len s).

Module utf8.

Definition RuneError : rune := 0xFFFD.
Definition RuneSelf : Z := 0x80.
Definition UTFMax : Z := 4.

(** The [first] table with its accept ranges: what the leading byte of
    an encoding announces. *)
Inductive firstInfo : Type :=
| ascii1                          (* as: one ASCII byte *)
| invalid1                        (* xx: not a leading byte *)
| lead (sz : Z) (lo hi : Z).      (* size and the range of the second byte *)

Definition first (b : Z) : firstInfo :=
  if b <? 0x80 then ascii1
  else if b <? 0xC2 then invalid1
  else if b <? 0xE0 then lead 2 0x80 0xBF
  else if b =? 0xE0 then lead 3 0xA0 0xBF
  else if b <? 0xED then lead 3 0x80 0xBF
  else if b =? 0xED then lead 3 0x80 0x9F
  else if b <? 0xF0 then lead 3 0x80 0xBF
  else if b =? 0xF0 then lead 4 0x90 0xBF
  else if b <? 0xF4 then lead 4 0x80 0xBF
  else if b =? 0xF4 then lead 4 0x80 0x8F
  else invalid1.

Definition locb : Z := 0x80.
Definition hicb : Z := 0xBF.
Definition maskx : Z := 0x3F.
Definition mask2 : Z := 0x1F.
Definition mask3 : Z := 0x0F.
Definition mask4 : Z := 0x07.

(** [utf8.DecodeRuneInString]: the first rune of [s] and its width; an
    invalid encoding gives [(RuneError, 1)], the empty string
    [(RuneError, 0)]. *)
Definition DecodeRuneInString (s : string) : rune * Z :=
  let n := len s in
  if n <? 1 then (RuneError, 0)
  else
    let s0 := byteAt s 0 in
    match first s0 with
    | ascii1 => (s0, 1)
    | invalid1 => (RuneError, 1)
    | lead sz lo hi =>
        if n <? sz then (RuneError, 1)
        else
          let s1 := byteAt s 1 in
          if (s1 <? lo) || (hi <? s1) then (RuneError, 1)
          else if sz <=? 2 then
            (Z.lor (Z.shiftl (Z.land s0 mask2) 6) (Z.land s1 maskx), 2)
          else
            let s2 := byteAt s 2 in
            if (s2 <? locb) || (hicb <? s2) then (RuneError, 1)
            else if sz <=? 3 then
              (Z.lor (Z.lor (Z.shiftl (Z.land s0 mask3) 12)
                            (Z.shiftl (Z.land s1 maskx) 6))
                     (Z.land s2 maskx), 3)
            else
              let s3 := byteAt s 3 in
              if (s3 <? locb) || (hicb <? s3) then (RuneError, 1)
              else
                (Z.lor (Z.lor (Z.lor (Z.shiftl (Z.land s0 mask4) 18)
                                     (Z.shiftl (Z.land s1 maskx) 12))
                              (Z.shiftl (Z.land s2 maskx) 6))
                       (Z.land s3 maskx), 4)
    end.

(** [utf8.RuneStart]: not a continuation byte. *)
Definition RuneStart (b : Z) : bool := negb (Z.land b 0xC0 =? 0x80).

(** The backwards scan of [DecodeLastRuneInString]:
    [for start--; start >= lim; start-- { if RuneStart(s[start]) { break } }],
    entered after the first decrement; it runs at most [UTFMax] times. *)
Fixpoint scanBack (fuel : nat) (s : string) (start lim : Z) : Z :=
  match fuel with
  | O => start
  | S fuel' =>
      if start <? lim then start
      else if RuneStart (byteAt s start) then start
      else scanBack fuel' s (start - 1) lim
  end.

(** [utf8.DecodeLastRuneInString] *)
Definition DecodeLastRuneInString (s : string) : rune * Z :=
  let end_ := len s in
  if end_ =? 0 then (RuneError, 0)
  else
    let start := end_ - 1 in
    let r := byteAt s start in
    if r <? RuneSelf then (r, 1)
    else
      let lim := Z.max 0 (end_ - UTFMax) in
      let start := scanBack 4 s (start - 1) lim in
      let start := if start <? 0 then 0 else start in
      let '(r, size) := DecodeRuneInString (slice s start end_) in
      if negb (start + size =? end_) then (RuneError, 1)
      else (r, size).

End utf8.

Module unicode.

Definition MaxLatin1 : rune := 0xFF.

(** [unicode.IsSpace]: the Latin-1 switch, then the [White_Space] range
    table without its Latin-1 entries. *)
Definition IsSpace (r : rune) : bool :=
  if (0 <=? r) && (r <=? MaxLatin1) then
    (r =? 0x09) || (r =? 0x0A) || (r =? 0x0B) || (r =? 0x0C) || (r =? 0x0D)
    || (r =? 0x20) || (r =? 0x85) || (r =? 0xA0)
  else
    (r =? 0x1680)
    || ((0x2000 <=? r) && (r <=? 0x200A))
    || ((0x2028 <=? r) && (r <=? 0x2029))
    || (r =? 0x202F) || (r =? 0x205F) || (r =? 0x3000).

(** The case-folding orbits of [unicode.SimpleFold] come from the Unicode
    character database, which is not part of the program; they are a
    parameter of the development. *)
Class CaseTable : Type := { SimpleFold : rune -> rune }.

End unicode.

Module strings.
Import utf8 unicode.

(** [indexFunc]: [for i, r := range s { if f(r) == truth { return i } }],
    [-1] when the range ends. Every step consumes at least one byte. *)
Fixpoint indexFuncFrom (fuel : nat) (s : string) (i : Z)
         (f : rune -> bool) (truth : bool) : Z :=
  match fuel with
  | O => -1
  | S fuel' =>
      if len s <=? i then -1
      else
        let '(r, size) := DecodeRuneInString (sliceFrom s i) in
        if Bool.eqb (f r) truth then i
        else indexFuncFrom fuel' s (i + size) f truth
  end.

Definition indexFunc (s : string) (f : rune -> bool) (truth : bool) : Z :=
  indexFuncFrom (String.length s) s 0 f truth.

(** [lastIndexFunc]: the same scan from the end of the string. *)
Fixpoint lastIndexFuncFrom (fuel : nat) (s : string) (i : Z)
         (f : rune -> bool) (truth : bool) : Z :=
  match fuel with
  | O => -1
  | S fuel' =>
      if i <=? 0 then -1
      else
        let '(r, size) := DecodeLastRuneInString (slice s 0 i) in
        let i := i - size in
        if Bool.eqb (f r) truth then i
        else lastIndexFuncFrom fuel' s i f truth
  end.

Definition lastIndexFunc (s : string) (f : rune -> bool) (truth : bool) : Z :=
  lastIndexFuncFrom (String.length s) s (len s) f truth.

Definition TrimLeftFunc (s : string) (f : rune -> bool) : string :=
  let i := indexFunc s f false in
  if i =? -1 then EmptyString else sliceFrom s i.

Definition TrimRightFunc (s : string) (f : rune -> bool) : string :=
  let i := lastIndexFunc s f false in
  let i :=
    if (0 <=? i) && (RuneSelf <=? byteAt s i)
    then i + snd (DecodeRuneInString (sliceFrom s i))
    else i + 1 in
  slice s 0 i.

Definition TrimFunc (s : string) (f : rune -> bool) : string :=
  TrimRightFunc (TrimLeftFunc s f) f.

(** The [asciiSpace] table. *)
Definition asciiSpace (c : Z) : bool :=
  (c =? 0x09) || (c =? 0x0A) || (c =? 0x0B) || (c =? 0x0C) || (c =? 0x0D)
  || (c =? 0x20).

(** The two ASCII loops of [TrimSpace]; the flag tells that a byte
    [>= RuneSelf] was met, where the function hands over to the
    Unicode-aware trimming. *)
Fixpoint trimSpaceStart (fuel : nat) (s : string) (start : Z) : Z * bool :=
  match fuel with
  | O => (start, false)
  | S fuel' =>
      if len s <=? start then (start, false)
      else
        let c := byteAt s start in
        if RuneSelf <=? c then (start, true)
        else if asciiSpace c then trimSpaceStart fuel' s (start + 1)
        else (start, false)
  end.

Fixpoint trimSpaceStop (fuel : nat) (s : string) (start stop : Z) : Z * bool :=
  match fuel with
  | O => (stop, false)
  | S fuel' =>
      if stop <=? start then (stop, false)
      else
        let c := byteAt s (stop - 1) in
        if RuneSelf <=? c then (stop, true)
        else if asciiSpace c then trimSpaceStop fuel' s start (stop - 1)
        else (stop, false)
  end.

(** [strings.TrimSpace]: [s] without its leading and trailing white
    space, as Unicode defines it. *)
Definition TrimSpace (s : string) : string :=
  let '(start, uni) := trimSpaceStart (String.length s) s 0 in
  if uni then TrimFunc (sliceFrom s start) IsSpace
  else
    let '(stop, uni) := trimSpaceStop (String.length s) s start (len s) in
    if uni then TrimRightFunc (slice s start stop) IsSpace
    else slice s start stop.

Section EqualFold.
Context `{CaseTable}.

Definition isUpperOf (sr tr : Z) : bool :=
  (0x41 <=? sr) && (sr <=? 0x5A) && (tr =? sr + 0x61 - 0x41).

(** The ASCII fast path of [EqualFold]: [inl b] is the value returned,
    [inr i] the index at which a non-ASCII byte sends it to
    [hasUnicode]. *)
Fixpoint equalFoldASCII (fuel : nat) (s t : string) (i : Z) : bool + Z :=
  match fuel with
  | O => inl (len s =? len t)
  | S fuel' =>
      if (i <? len s) && (i <? len t) then
        let sr := byteAt s i in
        let tr := byteAt t i in
        if RuneSelf <=? Z.lor sr tr then inr i
        else if tr =? sr then equalFoldASCII fuel' s t (i + 1)
        else
          let '(sr, tr) := if tr <? sr then (tr, sr) else (sr, tr) in
          if isUpperOf sr tr then equalFoldASCII fuel' s t (i + 1)
          else inl false
      else inl (len s =? len t)
  end.

(** [r := unicode.SimpleFold(sr); for r != sr && r < tr { r = unicode.SimpleFold(r) }].
    [SimpleFold] walks a finite orbit in increasing order and wraps
    round, so the loop meets [sr] or passes [tr] within [tr] steps. *)
Fixpoint foldOrbit (fuel : nat) (sr tr r : rune) : rune :=
  match fuel with
  | O => r
  | S fuel' =>
      if negb (r =? sr) && (r <? tr)
      then foldOrbit fuel' sr tr (SimpleFold r)
      else r
  end.

(** The [hasUnicode] loop: [for _, sr := range s { ... }] against the
    runes taken off the front of [t]. *)
Fixpoint equalFoldUnicode (fuel : nat) (s t : string) : bool :=
  match fuel with
  | O => len t =? 0
  | S fuel' =>
      if len s =? 0 then len t =? 0
      else
        let '(sr, ssize) := DecodeRuneInString s in
        if len t =? 0 then false
        else
          let '(tr, t') :=
            if byteAt t 0 <? RuneSelf then (byteAt t 0, sliceFrom t 1)
            else
              let '(r, size) := DecodeRuneInString t in
              (r, sliceFrom t size) in
          let s' := sliceFrom s ssize in
          if tr =? sr then equalFoldUnicode fuel' s' t'
          else
            let '(sr, tr) := if tr <? sr then (tr, sr) else (sr, tr) in
            if tr <? RuneSelf then
              if isUpperOf sr tr then equalFoldUnicode fuel' s' t'
              else false
            else
              let r := foldOrbit (Z.to_nat tr) sr tr (SimpleFold sr) in
              if r =? tr then equalFoldUnicode fuel' s' t'
              else false
  end.

(** [strings.EqualFold]: equality under simple Unicode case folding. *)
Definition EqualFold (s t : string) : bool :=
  match equalFoldASCII (String.length s) s t 0 with
  | inl b => b
  | inr i =>
      let s := sliceFrom s i in
      let t := sliceFrom t i in
      equalFoldUnicode (String.length s) s t
  end.
End EqualFold.

End strings.

Module strconv.

Definition isDigit (c : Z) : bool := (0x30 <=? c) && (c <=? 0x39).

(** The digits of [s] read in base ten; [None] at the first byte that is
    not a digit. *)
Fixpoint digits (s : string) (n : Z) : option Z :=
  match s with
  | EmptyString => Some n
  | String c s' =>
      let ch := byteOf c in
      if isDigit ch then digits s' (n * 10 + (ch - 0x30)) else None
  end.

(** [strconv.Atoi]: an optional sign, then one or more decimal digits,
    the value within [int]; [None] stands for its syntax and range
    errors alike (the program only tests [err != nil]). *)
Definition Atoi (s : string) : option Z :=
  match s with
  | EmptyString => None
  | String c s' =>
      let s0 := byteOf c in
      let body := if (s0 =? 0x2D) || (s0 =? 0x2B) then s' else s in
      if len body <? 1 then None
      else
        match digits body 0 with
        | None => None
        | Some n =>
            let n := if s0 =? 0x2D then - n else n in
            if (minInt <=? n) && (n <=? maxInt) then Some n else None
        end
  end.

End strconv.

(** The [error] values the program handles. The five sentinels are the
    package-level variables of the service; [errorString] is any other value
    made by [errors.New]; [wrapError] is what [fmt.Errorf] builds for a
    format ending in [%w]. *)
Inductive error : Type :=
| ErrNameRequired
| ErrNameLength
| ErrNameExists
| ErrDescriptionLength
| ErrNotFound
| errorString (s : string)
| wrapError (msg : string) (err : error).

#[global] Instance error_eq_dec : EqDecision error.
Proof. solve_decision. Defined.

Module errors.

(** [err.Error()] *)
Definition Error (e : error) : string :=
  match e with
  | ErrNameRequired => "module name is required"
  | ErrNameLength => "name must be 3-50 characters"
  | ErrNameExists => "module name already exists"
  | ErrDescriptionLength => "description exceeds 200 characters"
  | ErrNotFound => "module not found"
  | errorString s => s
  | wrapError msg _ => msg
  end.

Definition New (text : string) : error := errorString text.

(** [errors.Is]: [err] or an error it wraps is [target]. The targets of
    the program are the sentinels, for which [==] is identity. *)
Fixpoint Is (err target : error) : bool :=
  if bool_decide (err = target) then true
  else match err with
       | wrapError _ inner => Is inner target
       | _ => false
       end.

End errors.

Module fmt.
(** [fmt.Errorf(prefix + "%w", err)] *)
Definition Errorf_w (prefix : string) (err : error) : error :=
  wrapError (prefix ++ errors.Error err) err.
End fmt.

(** [time.Time], an instant. *)
Definition Time : Type := Z.

(* ===================================================================== *)
(** ** internal/domain/models/module                                      *)
(* ===================================================================== *)

Module module.

Record Module : Type := {
  ID : Z;
  Name : string;
  Description : string;
  IsActive : bool;
  CreatedAt : Time
}.

Record ModuleRequest : Type := {
  Request_Name : string;
  Request_Description : string;
  Request_IsActive : bool
}.

Record ModuleResponse : Type := {
  Response_ID : Z;
  Response_Name : string;
  Response_Description : string;
  Response_IsActive : bool;
  Response_CreatedAt : Time
}.

#[global] Instance Module_inhabited : Inhabited Module :=
  populate {| ID := 0; Name := ""; Description := ""; IsActive := false;
              CreatedAt := 0 |}.

(** [m.ID = id] *)
Definition setID (id : Z) (m : Module) : Module :=
  {| ID := id; Name := Name m; Description := Description m;
     IsActive := IsActive m; CreatedAt := CreatedAt m |}.

End module.

(** A [*module.Module] is a location; the entities live in a heap. *)
Definition loc : Type := positive.
Abbreviation Heap := (gmap loc module.Module).

(** [*p] for a pointer the program holds (Go pointers never dangle). *)
Definition deref (h : Heap) (p : loc) : module.Module := h !!! p.

(** [&module.Module{...}]: a new object at an unused location. *)
Definition new (v : module.Module) (h : Heap) : loc * Heap :=
  let p := fresh (dom h) in (p, <[p := v]> h).

(* ===================================================================== *)
(** ** internal/infra/db/module (module_in_memory.go)                     *)
(* ===================================================================== *)

Module repository.
Import module.

(** [mu] is locked on entry of every method and released by [defer] on
    return: each call is one atomic step on [data] and
    [autoIncrementID]. *)
Record ModuleRepository : Type := {
  data : gmap Z loc;
  autoIncrementID : Z
}.

(** The entities and the repository the service holds. *)
Record Store : Type := {
  heap : Heap;
  repo : ModuleRepository
}.

Definition NewModuleRepository : ModuleRepository :=
  {| data := ∅; autoIncrementID := 1 |}.

(** [CreateModule(m)]: writes the id into [*m], stores the pointer
    itself under that id, and returns [m, nil]. *)
Definition CreateModule (m : loc) (st : Store)
  : (loc * option error) * Store :=
  let r := repo st in
  let id := autoIncrementID r in
  let h := <[m := setID id (deref (heap st) m)]> (heap st) in
  ((m, None),
   {| heap := h;
      repo := {| data := <[id := m]> (data r);
                 autoIncrementID := wrapInt (id + 1) |} |}).

Section WithCaseTable.
Context `{unicode.CaseTable}.

(** [IsModuleNameExists(name, excludeId)]: some entry of the map, in
    whatever order [range] visits them, has an equal-folding name and
    an id other than [excludeId]. *)
Definition IsModuleNameExists (name : string) (excludeId : Z) (st : Store)
  : bool * option error :=
  (existsb
     (fun '(id, mod_) =>
        strings.EqualFold (Name (deref (heap st) mod_)) name
        && negb (id =? excludeId))
     (map_to_list (data (repo st))),
   None).
End WithCaseTable.

Definition GetModuleById (id : string) (st : Store)
  : option loc * option error :=
  match strconv.Atoi id with
  | None => (None, Some (errors.New "invalid ID format"))
  | Some moduleID =>
      match data (repo st) !! moduleID with
      | None => (None, None)
      | Some m => (Some m, None)
      end
  end.

End repository.

(* ===================================================================== *)
(** ** internal/domain/service/module                                     *)
(* ===================================================================== *)

Module service.
Import module repository.

Definition toResponse (e : Module) : ModuleResponse :=
  {| Response_ID := ID e;
     Response_Name := Name e;
     Response_Description := Description e;
     Response_IsActive := IsActive e;
     Response_CreatedAt := CreatedAt e |}.

Section WithCaseTable.
Context `{unicode.CaseTable}.

(** [CreateModule(moduleDto)]; [now] is the value [time.Now()] gives at
    step 5. *)
Definition CreateModule (now : Time) (moduleDto : ModuleRequest) (st : Store)
  : (option ModuleResponse * option error) * Store :=
  if String.eqb (strings.TrimSpace (Request_Name moduleDto)) "" then
    ((None, Some ErrNameRequired), st)
  else if (len (Request_Name moduleDto) <? 3)
          || (50 <? len (Request_Name moduleDto)) then
    ((None, Some ErrNameLength), st)
  else
    match IsModuleNameExists (Request_Name moduleDto) 0 st with
    | (_, Some err) =>
        ((None, Some (fmt.Errorf_w "database error checking name: " err)), st)
    | (true, None) => ((None, Some ErrNameExists), st)
    | (false, None) =>
        if 200 <? len (Request_Description moduleDto) then
          ((None, Some ErrDescriptionLength), st)
        else
          let '(entity, h) :=
            new {| ID := 0;
                   Name := Request_Name moduleDto;
                   Description := Request_Description moduleDto;
                   IsActive := Request_IsActive moduleDto;
                   CreatedAt := now |} (heap st) in
          match repository.CreateModule entity
                  {| heap := h; repo := repo st |} with
          | ((_, Some err), st') =>
              ((None, Some (fmt.Errorf_w "database error creating module: " err)), st')
          | ((savedEntity, None), st') =>
              ((Some (toResponse (deref (heap st') savedEntity)), None), st')
          end
    end.
End WithCaseTable.

Definition GetModuleById (id : string) (st : Store)
  : option ModuleResponse * option error :=
  match repository.GetModuleById id st with
  | (_, Some err) => (None, Some err)
  | (None, None) => (None, Some ErrNotFound)
  | (Some entity, None) => (Some (toResponse (deref (heap st) entity)), None)
  end.

End service.

(* ===================================================================== *)
(** ** internal/domain/models/response                                    *)
(* ===================================================================== *)

Module response.

(** What the [interface{}] of [Data] can hold; [None] is the nil
    interface. *)
Inductive any : Type :=
| ofModuleResponse (r : module.ModuleResponse)
| ofValue (json : string).

Record APIError : Type := {
  Code : string;
  Error_Message : string;
  Details : option (gmap string (list string))
}.

Record ResponseMeta : Type := {
  RequestId : string;
  Timestamp : string
}.

Record APIResponse : Type := {
  Success : bool;
  Message : string;
  Data : option any;
  Error : option APIError;
  Meta : ResponseMeta
}.

Record ResponseMapper : Type := { requestID : string }.

Definition NewResponseMapper (requestID : string) : ResponseMapper :=
  {| requestID := requestID |}.

(** In the four constructors [timestamp] is
    [time.Now().Format(time.RFC3339)]. [Mapper_Success] and
    [Mapper_Error] are the methods [Success] and [Error] of
    [ResponseMapper]. *)
Definition Mapper_Success (m : ResponseMapper) (timestamp : string)
           (data : option any) (message : string) (statusCode : Z)
  : APIResponse * Z :=
  ({| Success := true;
      Message := message;
      Data := data;
      Error := None;
      Meta := {| RequestId := requestID m; Timestamp := timestamp |} |},
   statusCode).

Definition Mapper_Error (m : ResponseMapper) (timestamp : string)
           (code message : string)
           (details : option (gmap string (list string))) (statusCode : Z)
  : APIResponse * Z :=
  ({| Success := false;
      Message := message;
      Data := None;
      Error := Some {| Code := code; Error_Message := message;
                       Details := details |};
      Meta := {| RequestId := requestID m; Timestamp := timestamp |} |},
   statusCode).

Definition NewSuccessResponse (timestamp : string) (data : option any)
           (message requestId : string) : APIResponse :=
  {| Success := true;
     Message := message;
     Data := data;
     Error := None;
     Meta := {| RequestId := requestId; Timestamp := timestamp |} |}.

Definition NewErrorResponse (timestamp : string) (code message : string)
           (details : option (gmap string (list string))) (requestId : string)
  : APIResponse :=
  {| Success := false;
     Message := message;
     Data := None;
     Error := Some {| Code := code; Error_Message := message;
                      Details := details |};
     Meta := {| RequestId := requestId; Timestamp := timestamp |} |}.

Definition StatusToMessage (statusCode : Z) : string :=
  if statusCode =? 200 then "Operation completed successfully"
  else if statusCode =? 201 then "Resource created successfully"
  else if statusCode =? 400 then "Invalid request parameters"
  else if statusCode =? 404 then "Resource not found"
  else if statusCode =? 409 then "Resource already exists"
  else "An unexpected error occurred".

End response.

(* ===================================================================== *)
(** ** gin: the part of [*gin.Context] the handlers and middleware use    *)
(* ===================================================================== *)

Module gin.
Import response.

(** The response writer: the status to send, whether the header has gone
    out, and the JSON documents written to the body so far. *)
Record ResponseWriter : Type := {
  status : Z;
  written : bool;
  body : list APIResponse
}.

Record Context : Type := {
  request_id : string;               (* ctx.GetString("request_id") *)
  Writer : ResponseWriter;
  header : gmap string string;       (* response headers *)
  Errors : list error;
  aborted : bool
}.

(** A context as the engine hands it to the first handler. *)
Definition newContext (requestID : string) : Context :=
  {| request_id := requestID;
     Writer := {| status := 200; written := false; body := [] |};
     header := ∅; Errors := []; aborted := false |}.

(** [w.WriteHeader(code)]: the status changes only while nothing has
    been written. *)
Definition WriteHeader (code : Z) (w : ResponseWriter) : ResponseWriter :=
  if (0 <? code) && negb (status w =? code) then
    if written w then w
    else {| status := code; written := written w; body := body w |}
  else w.

Definition bodyAllowedForStatus (st : Z) : bool :=
  if (100 <=? st) && (st <=? 199) then false
  else if st =? 204 then false
  else if st =? 304 then false
  else true.

(** [ctx.JSON(code, obj)] *)
Definition JSON (code : Z) (obj : APIResponse) (ctx : Context) : Context :=
  let w := WriteHeader code (Writer ctx) in
  let w :=
    if bodyAllowedForStatus code
    then {| status := status w; written := true; body := body w ++ [obj] |}
    else {| status := status w; written := true; body := body w |} in
  {| request_id := request_id ctx; Writer := w; header := header ctx;
     Errors := Errors ctx; aborted := aborted ctx |}.

(** [ctx.Header(key, value)] *)
Definition Header (key value : string) (ctx : Context) : Context :=
  {| request_id := request_id ctx; Writer := Writer ctx;
     header := <[key := value]> (header ctx);
     Errors := Errors ctx; aborted := aborted ctx |}.

(** [ctx.Set("request_id", value)] *)
Definition Set_request_id (value : string) (ctx : Context) : Context :=
  {| request_id := value; Writer := Writer ctx; header := header ctx;
     Errors := Errors ctx; aborted := aborted ctx |}.

(** [ctx.Abort()] *)
Definition Abort (ctx : Context) : Context :=
  {| request_id := request_id ctx; Writer := Writer ctx;
     header := header ctx; Errors := Errors ctx; aborted := true |}.

(** How a handler, or the rest of the chain run by [ctx.Next()], ended:
    it returned, or it panicked with a value ([%v] of it is kept). *)
Inductive outcome : Type :=
| returned
| panicked (v : string).

End gin.

(* ===================================================================== *)
(** ** internal/app/handlers                                              *)
(* ===================================================================== *)

Module handlers.
Import response gin.

(** [handleServiceError(ctx, err, mapper)] *)
Definition handleServiceError (timestamp : string) (ctx : Context)
           (err : error) (mapper : ResponseMapper) : Context :=
  let '(statusCode, code) :=
    if errors.Is err ErrNameRequired
       || errors.Is err ErrNameLength
       || errors.Is err ErrDescriptionLength
    then (400, "VALIDATION_ERROR"%string)
    else if errors.Is err ErrNameExists then (409, "RESOURCE_CONFLICT"%string)
    else if errors.Is err ErrNotFound then (404, "NOT_FOUND"%string)
    else (500, "INTERNAL_ERROR"%string) in
  let message := StatusToMessage statusCode in
  let details :=
    if statusCode =? 400
    then Some ({[ "name"%string := [errors.Error err] ]} : gmap string (list string))
    else None in
  let '(response, statusCode) :=
    Mapper_Error mapper timestamp code message details statusCode in
  JSON statusCode response ctx.

(** A [validator.FieldError], as far as the handler reads it: [Field()]
    and [Tag()]. *)
Record FieldError : Type := {
  Field : string;
  Tag : string
}.

(** The error of a failed binding: [validator.ValidationErrors], or any
    other error (malformed JSON, say). *)
Inductive bindError : Type :=
| ValidationErrors (verr : list FieldError)
| otherBindError (err : error).

(** The [switch tag] of [extractValidationErrors]. *)
Definition tagMessage (tag : string) : string :=
  if String.eqb tag "required" then "This field is required"
  else if String.eqb tag "min" then "Value is too short"
  else if String.eqb tag "max" then "Value exceeds maximum length"
  else "Validation failed".

(** [extractValidationErrors(err)]: [errors[field] = append(errors[field], message)]
    for each field error in turn; a missing key reads as nil. *)
Definition extractValidationErrors (err : bindError) : gmap string (list string) :=
  match err with
  | ValidationErrors verr =>
      foldl (fun errors fieldErr =>
               <[Field fieldErr :=
                   default [] (errors !! Field fieldErr) ++ [tagMessage (Tag fieldErr)]]>
                 errors)
            ∅ verr
  | otherBindError _ => ∅
  end.

(** What [ctx.ShouldBindJSON(&request)] gave: the field violations
    [extractValidationErrors] collects from a failed binding, or the
    request. *)
Inductive bound : Type :=
| bindFailed (details : gmap string (list string))
| bindOk (request : module.ModuleRequest).

(** Step 3 of [CreateModule]: the outcome of [ShouldBindJSON] as the
    handler takes it. *)
Definition bindResult (r : bindError + module.ModuleRequest) : bound :=
  match r with
  | inl err => bindFailed (extractValidationErrors err)
  | inr request => bindOk request
  end.

Section WithCaseTable.
Context `{unicode.CaseTable}.

(** [ModuleHandler.CreateModule]; the handler's service works on
    [st]. *)
Definition CreateModule (timestamp : string) (now : Time) (b : bound)
           (ctx : Context) (st : repository.Store)
  : (Context * outcome) * repository.Store :=
  let requestID := request_id ctx in
  let mapper := NewResponseMapper requestID in
  match b with
  | bindFailed details =>
      let '(response, statusCode) :=
        Mapper_Error mapper timestamp "VALIDATION_ERROR"
                     (StatusToMessage 400) (Some details) 400 in
      ((JSON statusCode response ctx, returned), st)
  | bindOk request =>
      match service.CreateModule now request st with
      | ((_, Some err), st') =>
          ((handleServiceError timestamp ctx err mapper, returned), st')
      | ((None, None), st') =>
          (* [responseData.ID] on a nil pointer *)
          ((ctx, panicked "runtime error: invalid memory address or nil pointer dereference"), st')
      | ((Some responseData, None), st') =>
          let '(response, statusCode) :=
            Mapper_Success mapper timestamp
                           (Some (ofModuleResponse responseData))
                           (StatusToMessage 201) 201 in
          let ctx :=
            Header "Location"
                   ("/api/v1/modules/" ++ pretty (module.Response_ID responseData))
                   ctx in
          ((JSON statusCode response ctx, returned), st')
      end
  end.
End WithCaseTable.

(** [ModuleHandler.GetModuleById]; [id] is [ctx.Param("id")]. *)
Definition GetModuleById (timestamp : string) (id : string)
           (ctx : Context) (st : repository.Store) : Context :=
  let requestID := request_id ctx in
  let mapper := NewResponseMapper requestID in
  match service.GetModuleById id st with
  | (_, Some err) => handleServiceError timestamp ctx err mapper
  | (module_, None) =>
      let '(response, statusCode) :=
        Mapper_Success mapper timestamp
                       (ofModuleResponse <$> module_)
                       (StatusToMessage 200) 200 in
      JSON statusCode response ctx
  end.

End handlers.

(* ===================================================================== *)
(** ** internal/middleware (exception_middleware.go)                      *)
(* ===================================================================== *)

Module middleware.
Import response gin.

(** [handleError(ctx, err, requestID)] *)
Definition handleError (timestamp : string) (ctx : Context) (err : error)
           (requestID : string) : Context :=
  let statusCode := status (Writer ctx) in
  let statusCode := if statusCode =? 200 then 500 else statusCode in
  let code := "INTERNAL_ERROR"%string in
  let message := StatusToMessage statusCode in
  JSON statusCode
       (NewErrorResponse timestamp code message
          (Some {[ "error"%string := [errors.Error err] ]}) requestID)
       ctx.

(** [ExceptionHandler()]: [next] is [ctx.Next()], the effect of the
    remaining handlers on the context and the way they ended. The second
    component is what the middleware prints to standard output. *)
Definition ExceptionHandler (timestamp : string)
           (next : Context -> Context * outcome) (ctx : Context)
  : Context * list string :=
  let requestID := request_id ctx in
  match next ctx with
  | (ctx, panicked err) =>
      let line := ("[ERROR] [" ++ requestID ++ "] Unhandled panic: " ++ err)%string in
      let response :=
        NewErrorResponse timestamp "INTERNAL_ERROR" (StatusToMessage 500)
                         None requestID in
      (Abort (JSON 500 response ctx), [line])
  | (ctx, returned) =>
      match Errors ctx with
      | err :: _ => (handleError timestamp ctx err requestID, [])
      | [] => (ctx, [])
      end
  end.

(** [RequestIDHandler()]: [inbound] is [c.GetHeader("X-Request-Id")],
    [uuid] is [uuid.New().String()], [next] is [c.Next()] with whatever
    it yields. *)
Definition RequestIDHandler {R : Type} (uuid inbound : string)
           (next : Context -> R) (c : Context) : R :=
  let requestID := if String.eqb inbound "" then uuid else inbound in
  let c := Set_request_id requestID c in
  let c := Header "X-Request-Id" requestID c in
  next c.

End middleware.

(* ===================================================================== *)
(** ** internal/app/router: the chains [SetupRouter] registers            *)
(* ===================================================================== *)

Module router.
Import gin.

(** [GET /api/v1/modules/:id]: [RequestIDHandler], [ExceptionHandler],
    then the handler; the result is the context and the log lines. *)
Definition GET_module (uuid inbound tsMiddleware tsHandler id : string)
           (st : repository.Store) (c : Context) : Context * list string :=
  middleware.RequestIDHandler uuid inbound
    (middleware.ExceptionHandler tsMiddleware
       (fun c => (handlers.GetModuleById tsHandler id c st, returned)))
    c.

Section WithCaseTable.
Context `{unicode.CaseTable}.

(** [POST /api/v1/modules]: the same chain round [CreateModule]; the store
    is the one the handler leaves. *)
Definition POST_modules (uuid inbound tsMiddleware tsHandler : string)
           (now : Time) (b : handlers.bound)
           (st : repository.Store) (c : Context)
  : (Context * list string) * repository.Store :=
  middleware.RequestIDHandler uuid inbound
    (fun c =>
       (middleware.ExceptionHandler tsMiddleware
          (fun c' => fst (handlers.CreateModule tsHandler now b c' st)) c,
        snd (handlers.CreateModule tsHandler now b c st)))
    c.
End WithCaseTable.

End router.

(* ===================================================================== *)
(** ** Specification vocabulary                                           *)
(* ===================================================================== *)

Import module repository.

(** The store of a handler just built by [NewModuleHandler]. *)
Definition initialStore : Store :=
  {| heap := ∅; repo := NewModuleRepository |}.

(** A caller builds an entity. *)
Definition allocate (v : Module) (st : Store) : Store :=
  {| heap := snd (new v (heap st)); repo := repo st |}.

(** [m] points to an object. *)
Definition allocated (st : Store) (m : loc) : Prop := is_Some (heap st !! m).

(** [m] points to an object the repository does not hold: what
    [service.CreateModule] passes, an entity it has just built. *)
Definition unheld (st : Store) (m : loc) : Prop :=
  is_Some (heap st !! m) ∧ ∀ k, data (repo st) !! k ≠ Some m.

(** The stores reached from [NewModuleRepository] by calls of the three
    repository methods, callers building entities in between; [n] counts
    the [CreateModule] calls and [ok] says which pointers they may pass.
    [IsModuleNameExists] and [GetModuleById] return a value and leave the
    store as it is. *)
Inductive reach (ok : Store -> loc -> Prop) : nat -> Store -> Prop :=
| reach_new : reach ok 0 initialStore
| reach_allocate n st v :
    reach ok n st -> reach ok n (allocate v st)
| reach_CreateModule n st m :
    reach ok n st -> ok st m ->
    reach ok (S n) (snd (repository.CreateModule m st))
| reach_IsModuleNameExists `{unicode.CaseTable} n st name excludeId b :
    reach ok n st -> repository.IsModuleNameExists name excludeId st = b ->
    reach ok n st
| reach_GetModuleById n st id r :
    reach ok n st -> repository.GetModuleById id st = r ->
    reach ok n st.

(** The invariant of the repository: keys are the ids of the entities
    they hold, ids lie between 1 and the counter, held pointers point to
    objects. *)
Definition idsConsistent (st : Store) : Prop :=
  ∀ k p, data (repo st) !! k = Some p ->
         is_Some (heap st !! p)
         ∧ ID (deref (heap st) p) = k
         ∧ 1 <= k < autoIncrementID (repo st).

(** A fragment of the Unicode case orbits, for running examples: the
    orbit of K, which [unicode.SimpleFold] documents as
    K -> k -> U+212A (KELVIN SIGN) -> K, and the other ASCII letters. *)
Definition latinFold (r : rune) : rune :=
  if r =? 0x4B then 0x6B
  else if r =? 0x6B then 0x212A
  else if r =? 0x212A then 0x4B
  else if (0x41 <=? r) && (r <=? 0x5A) then r + 0x20
  else if (0x61 <=? r) && (r <=? 0x7A) then r - 0x20
  else r.

Definition latinTable : unicode.CaseTable := {| unicode.SimpleFold := latinFold |}.

(** U+212A KELVIN SIGN in UTF-8. *)
Definition kelvin : string :=
  String "226" (String "132" (String "170" EmptyString)).

Definition request (name description : string) : ModuleRequest :=
  {| Request_Name := name; Request_Description := description;
     Request_IsActive := true |}.

(** A string of [n] copies of [c]. *)
Fixpoint repeatChar (c : ascii) (n : nat) : string :=
  match n with
  | O => EmptyString
  | S n' => String c (repeatChar c n')
  end.

(** The store after one entity is built and passed to [CreateModule]
    twice. *)
Definition aliasedStore : Store :=
  snd (repository.CreateModule 1%positive
         (snd (repository.CreateModule 1%positive
                 (allocate inhabitant initialStore)))).

(** The store after "Inventory" has been created. *)
Definition inventoryStore : Store :=
  snd (@service.CreateModule latinTable 100 (request "Inventory" "stock") initialStore).

(** Errors of the storage layer: values made below the service, which
    are not, and do not wrap, the service's sentinels (the repository
    package cannot name them). *)
Inductive storageFault : error -> Prop :=
| fault_new s : storageFault (errorString s)
| fault_wrap msg e : storageFault e -> storageFault (wrapError msg e).

(** The errors the two service methods return: a sentinel, a storage
    fault wrapped by [CreateModule], or a repository error passed on by
    [GetModuleById]. *)
Inductive serviceError : error -> Prop :=
| service_ErrNameRequired : serviceError ErrNameRequired
| service_ErrNameLength : serviceError ErrNameLength
| service_ErrNameExists : serviceError ErrNameExists
| service_ErrDescriptionLength : serviceError ErrDescriptionLength
| service_ErrNotFound : serviceError ErrNotFound
| service_checking e :
    storageFault e ->
    serviceError (fmt.Errorf_w "database error checking name: " e)
| service_creating e :
    storageFault e ->
    serviceError (fmt.Errorf_w "database error creating module: " e)
| service_passed e : storageFault e -> serviceError e.

(** The table of section 4.4 of the specification: HTTP status and code
    for each business error. *)
Definition errorTable (err : error) : Z * string :=
  match err with
  | ErrNameRequired | ErrNameLength | ErrDescriptionLength =>
      (400, "VALIDATION_ERROR"%string)
  | ErrNameExists => (409, "RESOURCE_CONFLICT"%string)
  | ErrNotFound => (404, "NOT_FOUND"%string)
  | _ => (500, "INTERNAL_ERROR"%string)
  end.

(** The envelope of the exception middleware. *)
Definition internalErrorEnvelope (timestamp requestID message : string)
           (details : option (gmap string (list string)))
  : response.APIResponse :=
  {| response.Success := false;
     response.Message := message;
     response.Data := None;
     response.Error :=
       Some {| response.Code := "INTERNAL_ERROR";
               response.Error_Message := message;
               response.Details := details |};
     response.Meta := {| response.RequestId := requestID;
                         response.Timestamp := timestamp |} |}.

(** Handlers for running the middleware: one that panics with [v], one
    that attaches [err] and returns without writing. *)
Definition panicsWith (v : string) (ctx : gin.Context) : gin.Context * gin.outcome :=
  (ctx, gin.panicked v).

Definition attaches (err : error) (ctx : gin.Context) : gin.Context * gin.outcome :=
  ({| gin.request_id := gin.request_id ctx; gin.Writer := gin.Writer ctx;
      gin.header := gin.header ctx; gin.Errors := gin.Errors ctx ++ [err];
      gin.aborted := gin.aborted ctx |}, gin.returned).

(** [s] consists of ASCII white space only (the [asciiSpace] table). *)
Fixpoint allAsciiSpace (s : string) : bool :=
  match s with
  | EmptyString => true
  | String c s' => strings.asciiSpace (byteOf c) && allAsciiSpace s'
  end.

(** [s] and [t] are ASCII strings of the same length that differ at most
    in the case of their letters. *)
Fixpoint sameUpToASCIICase (s t : string) : bool :=
  match s, t with
  | EmptyString, EmptyString => true
  | String a s', String b t' =>
      (byteOf a <? utf8.RuneSelf) && (byteOf b <? utf8.RuneSelf)
      && ((byteOf b =? byteOf a)
          || strings.isUpperOf (byteOf a) (byteOf b)
          || strings.isUpperOf (byteOf b) (byteOf a))
      && sameUpToASCIICase s' t'
  | _, _ => false
  end.

(** A sequence of creation requests served one after the other, each with
    the time of its call. *)
Definition runRequests `{unicode.CaseTable}
           (reqs : list (Time * ModuleRequest)) (st : Store) : Store :=
  foldl (fun st r => snd (service.CreateModule (fst r) (snd r) st)) st reqs.

(** No stored name equal-folds with the name of a record stored after
    it. *)
Definition namesUnique `{unicode.CaseTable} (st : Store) : Prop :=
  ∀ k1 p1 k2 p2,
    data (repo st) !! k1 = Some p1 -> data (repo st) !! k2 = Some p2 ->
    k1 < k2 ->
    strings.EqualFold (Name (deref (heap st) p1)) (Name (deref (heap st) p2)) = false.

(* ===================================================================== *)
(** ** Arithmetic of [int] and facts on the heap                          *)
(* ===================================================================== *)

Lemma wrapInt_in_range z : minInt <= z <= maxInt -> wrapInt z = z.
Proof.
  unfold wrapInt, minInt, maxInt. intros Hz.
  rewrite Z.mod_small; lia.
Qed.

Lemma wrapInt_succ_ne z : wrapInt (z + 1) ≠ z.
Proof.
  unfold wrapInt. intros Heq.
  pose proof (Z.mod_eq (z + 1 + 2 ^ 63) (2 ^ 64) ltac:(lia)) as Hm.
  lia.
Qed.

Lemma fresh_unallocated (h : Heap) : h !! fresh (dom h) = None.
Proof. apply not_elem_of_dom, is_fresh. Qed.

Lemma deref_insert_eq (h : Heap) p v : deref (<[p := v]> h) p = v.
Proof. unfold deref. by rewrite lookup_total_insert_eq. Qed.

Lemma deref_insert_ne (h : Heap) p q v :
  p ≠ q -> deref (<[p := v]> h) q = deref h q.
Proof. intros Hne. unfold deref. by rewrite lookup_total_insert_ne. Qed.

(* ===================================================================== *)
(** ** The in-memory repository: ids and the objects held                 *)
(* ===================================================================== *)

Lemma idsConsistent_allocate v st :
  idsConsistent st -> idsConsistent (allocate v st).
Proof.
  intros Hinv k p Hk. simpl in Hk.
  destruct (Hinv k p Hk) as (Halloc & Hid & Hrange).
  assert (Hne : fresh (dom (heap st)) ≠ p).
  { intros <-. destruct Halloc as [x Hx].
    rewrite fresh_unallocated in Hx. discriminate. }
  unfold allocate, new; simpl. repeat split; try lia.
  - by rewrite lookup_insert_ne.
  - by rewrite deref_insert_ne.
Qed.

Lemma idsConsistent_CreateModule m st :
  idsConsistent st -> unheld st m ->
  1 <= autoIncrementID (repo st) < maxInt ->
  idsConsistent (snd (repository.CreateModule m st)).
Proof.
  intros Hinv [Halloc Hunheld] Hc k p. simpl.
  rewrite wrapInt_in_range by (unfold minInt, maxInt in *; lia).
  destruct (decide (autoIncrementID (repo st) = k)) as [<- | Hk].
  - rewrite lookup_insert_eq. intros [= <-].
    rewrite lookup_insert_eq, deref_insert_eq. simpl.
    repeat split; [by eexists | lia | lia].
  - rewrite lookup_insert_ne by done. intros Hp.
    destruct (Hinv k p Hp) as (Hall & Hid & Hrange).
    assert (Hne : m ≠ p) by (intros ->; by apply (Hunheld k)).
    rewrite lookup_insert_ne, deref_insert_ne by done.
    repeat split; [done | done | lia | lia].
Qed.

Lemma reach_counter n st :
  reach unheld n st -> Z.of_nat n < maxInt ->
  autoIncrementID (repo st) = Z.of_nat n + 1 ∧ idsConsistent st.
Proof.
  induction 1 as [ | n st v _ IH | n st m _ IH Hok | | ]; intros Hn; auto.
  - split; [reflexivity | ]. intros k p Hk. simpl in Hk.
    by rewrite lookup_empty in Hk.
  - destruct (IH Hn) as [Hc Hinv]. split; [exact Hc | ].
    by apply idsConsistent_allocate.
  - destruct IH as [Hc Hinv]; [lia | ]. split.
    + simpl. rewrite Hc.
      rewrite wrapInt_in_range by (unfold minInt, maxInt in *; lia). lia.
    + apply idsConsistent_CreateModule; [done | done | lia].
Qed.

(** C9, as the code has it. In every store reached from
    [NewModuleRepository] by fewer than 2^63 - 1 [CreateModule] calls, each
    given an entity the repository does not hold yet (as the service's
    always is), and any [IsModuleNameExists] and [GetModuleById] calls:
    the counter is one more than the number of creations; every key is the
    [ID] of the entity stored under it and lies in [1, autoIncrementID);
    and the next [CreateModule] writes the id [n + 1], positive and above
    every id assigned before, so that successive creations get 1, 2, 3, ... *)
Theorem repository_ids_invariant n st :
  reach unheld n st -> Z.of_nat n < maxInt ->
  autoIncrementID (repo st) = Z.of_nat n + 1
  ∧ (∀ k p, data (repo st) !! k = Some p ->
       ID (deref (heap st) p) = k ∧ 1 <= k < autoIncrementID (repo st))
  ∧ (∀ m, unheld st m ->
       let '((saved, err), st') := repository.CreateModule m st in
       saved = m ∧ err = None
       ∧ ID (deref (heap st') saved) = Z.of_nat n + 1
       ∧ 0 < ID (deref (heap st') saved)
       ∧ data (repo st') !! (Z.of_nat n + 1) = Some m
       ∧ data (repo st) !! (Z.of_nat n + 1) = None
       ∧ ∀ k p, data (repo st) !! k = Some p -> k < ID (deref (heap st') saved)).
Proof.
  intros Hreach Hn.
  destruct (reach_counter n st Hreach Hn) as [Hc Hinv].
  split; [exact Hc | split].
  - intros k p Hk. destruct (Hinv k p Hk) as (_ & Hid & Hr). by split.
  - intros m Hm. simpl. rewrite Hc, deref_insert_eq, lookup_insert_eq. simpl.
    repeat split; try lia.
    + destruct (data (repo st) !! (Z.of_nat n + 1)) as [p | ] eqn:Hp; [ | done].
      destruct (Hinv _ _ Hp) as (_ & _ & Hr). lia.
    + intros k p Hk. destruct (Hinv _ _ Hk) as (_ & _ & Hr). lia.
Qed.

Lemma repository_ids_invariant_witness :
  let st := snd (repository.CreateModule 1%positive
                   (allocate inhabitant initialStore)) in
  reach unheld 1 st ∧ Z.of_nat 1 < maxInt
  ∧ autoIncrementID (repo st) = Z.of_nat 1 + 1.
Proof.
  intros st.
  assert (Hreach : reach unheld 1 st).
  { apply reach_CreateModule.
    - apply reach_allocate, reach_new.
    - split; [by vm_compute; eexists | intros k Hk; by vm_compute in Hk]. }
  assert (Hn : Z.of_nat 1 < maxInt) by (vm_compute; reflexivity).
  split; [exact Hreach | split; [exact Hn | ]].
  exact (proj1 (repository_ids_invariant 1 st Hreach Hn)).
Defined.

(** C9 as stated fails: the repository stores the caller's pointer, so a
    second [CreateModule] on the same entity overwrites the [ID] of the
    object already held under key 1. *)
Lemma repository_ids_aliasing_counterexample :
  reach allocated 2 aliasedStore
  ∧ data (repo aliasedStore) !! 1 = Some 1%positive
  ∧ ID (deref (heap aliasedStore) 1%positive) = 2.
Proof.
  split; [ | split; vm_compute; reflexivity].
  unfold aliasedStore.
  apply reach_CreateModule.
  - apply reach_CreateModule.
    + apply reach_allocate, reach_new.
    + vm_compute. by eexists.
  - vm_compute. by eexists.
Qed.

(** Without the bound on the number of creations the counter leaves the
    positive range: [autoIncrementID++] wraps. *)
Lemma reach_counter_wrapInt n st :
  reach unheld n st -> autoIncrementID (repo st) = wrapInt (Z.of_nat n + 1).
Proof.
  induction 1 as [ | | n st m _ IH _ | | ]; auto.
  simpl. rewrite IH. unfold wrapInt. f_equal.
  replace (Z.of_nat (S n) + 1 + 2 ^ 63) with (Z.of_nat n + 1 + 2 ^ 63 + 1) by lia.
  rewrite <- (Z.add_mod_idemp_l (Z.of_nat n + 1 + 2 ^ 63) 1) by lia.
  f_equal. lia.
Qed.

Lemma reach_held_allocated n st k p :
  reach unheld n st -> data (repo st) !! k = Some p -> is_Some (heap st !! p).
Proof.
  intros Hreach. revert k p.
  induction Hreach as [ | n st v _ IH | n st m _ IH [Hm _] | | ]; intros k p; try (by eauto).
  - simpl. intros Hk. destruct (IH _ _ Hk) as [x Hx].
    unfold new; simpl.
    destruct (decide (fresh (dom (heap st)) = p)) as [<- | Hne].
    + rewrite lookup_insert_eq. by eexists.
    + rewrite lookup_insert_ne by done. by eexists.
  - simpl. intros Hk.
    destruct (decide (m = p)) as [<- | Hne].
    + rewrite lookup_insert_eq. by eexists.
    + rewrite lookup_insert_ne by done.
      destruct (decide (autoIncrementID (repo st) = k)) as [<- | Hk'].
      * rewrite lookup_insert_eq in Hk. congruence.
      * rewrite lookup_insert_ne in Hk by done. by eapply IH.
Qed.

Lemma reach_first_key n st :
  reach unheld (S n) st -> is_Some (data (repo st) !! 1).
Proof.
  remember (S n) as n' eqn:Hn'. intros Hreach. revert n Hn'.
  induction Hreach as [ | n0 st v _ IH | n0 st m Hr IH _ | | ]; intros n' Hn'; eauto.
  - discriminate.
  - simpl. injection Hn' as ->.
    destruct (decide (autoIncrementID (repo st) = 1)) as [-> | Hne].
    + rewrite lookup_insert_eq. by eexists.
    + rewrite lookup_insert_ne by done.
      destruct n' as [ | n'']; [ | by eapply IH].
      exfalso. apply Hne. by rewrite (reach_counter_wrapInt 0 st Hr).
Qed.

Lemma reach_any n : ∃ st, reach unheld n st.
Proof.
  induction n as [ | n [st Hst]].
  - exists initialStore. constructor.
  - eexists. apply reach_CreateModule with (m := fresh (dom (heap st))).
    + apply reach_allocate with (v := inhabitant). exact Hst.
    + split.
      * unfold allocate, new; simpl. rewrite lookup_insert_eq. by eexists.
      * intros k Hk. simpl in Hk.
        destruct (reach_held_allocated _ _ _ _ Hst Hk) as [x Hx].
        rewrite fresh_unallocated in Hx. discriminate.
Qed.

Lemma id_counter_wraps :
  ∃ st, reach unheld (Z.to_nat maxInt) st
        ∧ autoIncrementID (repo st) = minInt
        ∧ ∃ p, data (repo st) !! 1 = Some p.
Proof.
  destruct (reach_any (Z.to_nat maxInt)) as [st Hst].
  exists st. split; [exact Hst | split].
  - rewrite (reach_counter_wrapInt _ _ Hst).
    rewrite Z2Nat.id by (unfold maxInt; lia).
    reflexivity.
  - assert (Hpos : ∃ n, Z.to_nat maxInt = S n).
    { exists (Z.to_nat (maxInt - 1)).
      rewrite <- Z2Nat.inj_succ by (unfold maxInt; lia).
      by replace (Z.succ (maxInt - 1)) with maxInt by lia. }
    destruct Hpos as [n Hn]. rewrite Hn in Hst.
    exact (reach_first_key _ _ Hst).
Qed.

(** What [service.CreateModule] passes to the repository is an entity it
    has just built: its calls stay within [reach unheld]. *)
Lemma service_CreateModule_reach `{unicode.CaseTable} n st now dto :
  reach unheld n st ->
  ∃ n', reach unheld n' (snd (service.CreateModule now dto st))
        ∧ (n' = n ∨ n' = S n).
Proof.
  intros Hreach. unfold service.CreateModule.
  destruct (String.eqb _ _); [by exists n; auto | ].
  destruct (_ || _); [by exists n; auto | ].
  destruct (IsModuleNameExists _ _ _) as [[ | ] [e | ]]; try (by exists n; auto).
  destruct (_ <? _); [by exists n; auto | ].
  exists (S n). split; [ | by right].
  unfold new; cbn zeta.
  change ({| heap := <[fresh (dom (heap st)) := ?v]> (heap st); repo := repo st |})
    with (allocate v st).
  set (v := {| ID := 0 |}).
  assert (Hok : unheld (allocate v st) (fresh (dom (heap st)))).
  { split.
    - unfold allocate, new; simpl. rewrite lookup_insert_eq. by eexists.
    - intros k Hk. simpl in Hk.
      destruct (reach_held_allocated _ _ _ _ Hreach Hk) as [x Hx].
      rewrite fresh_unallocated in Hx. discriminate. }
  pose proof (reach_CreateModule unheld n _ _ (reach_allocate unheld n st v Hreach) Hok) as Hr.
  exact Hr.
Qed.

(* ===================================================================== *)
(** ** The service: validation of a creation request                      *)
(* ===================================================================== *)

Section Service.
Context `{unicode.CaseTable}.

Lemma eqb_empty_false s : s ≠ EmptyString -> String.eqb s "" = false.
Proof. intros Hs. by apply String.eqb_neq. Qed.

Lemma eqb_empty_true s : s = EmptyString -> String.eqb s "" = true.
Proof. intros ->. reflexivity. Qed.

Lemma length_check_false name :
  3 <= len name <= 50 -> (len name <? 3) || (50 <? len name) = false.
Proof. intros Hl. apply orb_false_intro; apply Z.ltb_ge; lia. Qed.

Lemma length_check_true name :
  len name < 3 ∨ 50 < len name -> (len name <? 3) || (50 <? len name) = true.
Proof. intros [Hl | Hl]; apply orb_true_iff; [left | right]; by apply Z.ltb_lt. Qed.

Lemma IsModuleNameExists_no_error name excludeId st :
  snd (IsModuleNameExists name excludeId st) = None.
Proof. reflexivity. Qed.

(** The error [service.CreateModule] returns, check by check. *)
Lemma CreateModule_error now dto st :
  snd (fst (service.CreateModule now dto st)) =
    if String.eqb (strings.TrimSpace (Request_Name dto)) "" then Some ErrNameRequired
    else if (len (Request_Name dto) <? 3) || (50 <? len (Request_Name dto))
         then Some ErrNameLength
    else if fst (IsModuleNameExists (Request_Name dto) 0 st) then Some ErrNameExists
    else if 200 <? len (Request_Description dto) then Some ErrDescriptionLength
    else None.
Proof.
  unfold service.CreateModule, IsModuleNameExists.
  destruct (String.eqb _ _); [reflexivity | ].
  destruct (_ || _); [reflexivity | ].
  cbn [fst]. destruct (existsb _ _); [reflexivity | ].
  destruct (200 <? _); reflexivity.
Qed.

(** On an error the response is nil. *)
Lemma CreateModule_error_nil now dto st e :
  snd (fst (service.CreateModule now dto st)) = Some e ->
  fst (fst (service.CreateModule now dto st)) = None.
Proof.
  unfold service.CreateModule, IsModuleNameExists.
  destruct (String.eqb _ _); [reflexivity | ].
  destruct (_ || _); [reflexivity | ].
  destruct (existsb _ _); [reflexivity | ].
  destruct (200 <? _); [reflexivity | ].
  simpl. discriminate.
Qed.

(** C1, as the code has it. For a request whose name is not blank,
    [CreateModule] returns [ErrNameLength] exactly when the length of
    the name as given, not trimmed, is outside [3, 50]. *)
Theorem name_length_error now dto st :
  strings.TrimSpace (Request_Name dto) ≠ EmptyString ->
  snd (fst (service.CreateModule now dto st)) = Some ErrNameLength
  <-> (len (Request_Name dto) < 3 ∨ 50 < len (Request_Name dto)).
Proof.
  intros Hname. rewrite CreateModule_error, (eqb_empty_false _ Hname).
  destruct (_ || _) eqn:Hlen.
  - split; [ | done]. intros _.
    apply orb_true_iff in Hlen as [Hl | Hl]; apply Z.ltb_lt in Hl; lia.
  - split.
    + destruct (fst _); [discriminate | ]. destruct (200 <? _); discriminate.
    + intros Hl. by rewrite (length_check_true _ Hl) in Hlen.
Qed.

(** C5. The checks run in the order name required, name length, name
    exists, description length, and the first one that fails gives the
    single error returned, whatever the later checks would say. *)
Theorem validation_order now dto st :
  let name := Request_Name dto in
  let result := fst (service.CreateModule now dto st) in
  (strings.TrimSpace name = EmptyString ->
   result = (None, Some ErrNameRequired))
  ∧ (strings.TrimSpace name ≠ EmptyString ->
     len name < 3 ∨ 50 < len name ->
     result = (None, Some ErrNameLength))
  ∧ (strings.TrimSpace name ≠ EmptyString ->
     3 <= len name <= 50 ->
     IsModuleNameExists name 0 st = (true, None) ->
     result = (None, Some ErrNameExists))
  ∧ (strings.TrimSpace name ≠ EmptyString ->
     3 <= len name <= 50 ->
     IsModuleNameExists name 0 st = (false, None) ->
     200 < len (Request_Description dto) ->
     result = (None, Some ErrDescriptionLength)).
Proof.
  cbn zeta. unfold service.CreateModule. repeat split.
  - intros Hb. by rewrite (eqb_empty_true _ Hb).
  - intros Hb Hl. by rewrite (eqb_empty_false _ Hb), (length_check_true _ Hl).
  - intros Hb Hl He.
    by rewrite (eqb_empty_false _ Hb), (length_check_false _ Hl), He.
  - intros Hb Hl He Hd.
    rewrite (eqb_empty_false _ Hb), (length_check_false _ Hl), He.
    apply Z.ltb_lt in Hd. by rewrite Hd.
Qed.


Lemma repository_CreateModule_advances m st :
  autoIncrementID (repo (snd (repository.CreateModule m st)))
  ≠ autoIncrementID (repo st).
Proof. simpl. apply wrapInt_succ_ne. Qed.

(** C10. When [service.CreateModule] returns one of the four business
    errors, the store is the one it started from: no entity was built,
    the map and the counter are as before; and no call of the
    repository's [CreateModule] leaves the repository in that state. *)
Theorem CreateModule_atomic_on_business_errors now dto st resp e st' :
  service.CreateModule now dto st = ((resp, Some e), st') ->
  e = ErrNameRequired ∨ e = ErrNameLength ∨ e = ErrNameExists
  ∨ e = ErrDescriptionLength ->
  st' = st
  ∧ data (repo st') = data (repo st)
  ∧ autoIncrementID (repo st') = autoIncrementID (repo st)
  ∧ ∀ m st0, repo st0 = repo st ->
             repo (snd (repository.CreateModule m st0)) ≠ repo st'.
Proof.
  intros Hrun _.
  assert (Hst : st' = st).
  { revert Hrun. unfold service.CreateModule, IsModuleNameExists.
    destruct (String.eqb _ _); [by intros [= _ _ <-] | ].
    destruct (_ || _); [by intros [= _ _ <-] | ].
    destruct (existsb _ _); [by intros [= _ _ <-] | ].
    destruct (200 <? _); [by intros [= _ _ <-] | ].
    simpl. discriminate. }
  subst st'. repeat split.
  intros m st0 Hrepo Heq.
  apply (repository_CreateModule_advances m st0).
  by rewrite Heq, Hrepo.
Qed.

End Service.

Section Uniqueness.
Context `{unicode.CaseTable}.

Lemma IsModuleNameExists_held name excludeId st k p :
  data (repo st) !! k = Some p ->
  strings.EqualFold (Name (deref (heap st) p)) name = true ->
  k ≠ excludeId ->
  IsModuleNameExists name excludeId st = (true, None).
Proof.
  intros Hk Hfold Hne. unfold IsModuleNameExists. f_equal.
  apply existsb_exists. exists (k, p). split.
  - apply list_elem_of_In. by apply elem_of_map_to_list.
  - rewrite Hfold. simpl. apply negb_true_iff. by apply Z.eqb_neq.
Qed.

(** What a successful [service.CreateModule] leaves in the store: the
    new entity, under the id the counter had. *)
Lemma CreateModule_persisted now dto st resp st' :
  service.CreateModule now dto st = ((Some resp, None), st') ->
  ∃ p, data (repo st') !! autoIncrementID (repo st) = Some p
       ∧ Name (deref (heap st') p) = Request_Name dto
       ∧ Response_ID resp = autoIncrementID (repo st)
       ∧ Response_Name resp = Request_Name dto.
Proof.
  unfold service.CreateModule, IsModuleNameExists.
  destruct (String.eqb _ _); [discriminate | ].
  destruct (_ || _); [discriminate | ].
  destruct (existsb _ _); [discriminate | ].
  destruct (200 <? _); [discriminate | ].
  unfold new, repository.CreateModule. cbn [fst snd heap repo data autoIncrementID].
  intros [= <- <-]. exists (fresh (dom (heap st))).
  cbn [fst snd heap repo data autoIncrementID].
  rewrite lookup_insert_eq, !deref_insert_eq. by simpl.
Qed.

(** C3, as the code has it. After a creation has been persisted, a
    second request whose name equal-folds with the stored one and
    itself passes the name-required and name-length checks gets
    [ErrNameExists]; the store is left as it was and the handler answers
    409 [RESOURCE_CONFLICT]. (The repository's next id is not 0, the id
    that [excludeId = 0] leaves out.) *)
Theorem duplicate_name_conflict now1 dto1 st resp1 st1 now2 dto2 :
  autoIncrementID (repo st) ≠ 0 ->
  service.CreateModule now1 dto1 st = ((Some resp1, None), st1) ->
  strings.EqualFold (Request_Name dto1) (Request_Name dto2) = true ->
  strings.TrimSpace (Request_Name dto2) ≠ EmptyString ->
  3 <= len (Request_Name dto2) <= 50 ->
  IsModuleNameExists (Request_Name dto2) 0 st1 = (true, None)
  ∧ service.CreateModule now2 dto2 st1 = ((None, Some ErrNameExists), st1)
  ∧ ∀ timestamp ctx mapper,
      handlers.handleServiceError timestamp ctx ErrNameExists mapper =
      gin.JSON 409
        (fst (response.Mapper_Error mapper timestamp "RESOURCE_CONFLICT"
                (response.StatusToMessage 409) None 409))
        ctx.
Proof.
  intros Hid Hfirst Hfold Hb Hl.
  destruct (CreateModule_persisted _ _ _ _ _ Hfirst) as (p & Hp & Hname & _).
  assert (He : IsModuleNameExists (Request_Name dto2) 0 st1 = (true, None)).
  { eapply IsModuleNameExists_held; [exact Hp | by rewrite Hname | exact Hid]. }
  split; [exact He | split; [ | done]].
  unfold service.CreateModule.
  by rewrite (eqb_empty_false _ Hb), (length_check_false _ Hl), He.
Qed.

End Uniqueness.

(* ===================================================================== *)
(** ** Runs of the service on concrete requests                           *)
(* ===================================================================== *)

Lemma name_length_error_witness :
  strings.TrimSpace "In" ≠ EmptyString
  ∧ (snd (fst (@service.CreateModule latinTable 0 (request "In" "") initialStore))
     = Some ErrNameLength
     <-> (len "In" < 3 ∨ 50 < len "In")).
Proof.
  assert (Hb : strings.TrimSpace "In" ≠ EmptyString) by (vm_compute; discriminate).
  split; [exact Hb | ].
  exact (@name_length_error latinTable 0 (request "In" "") initialStore Hb).
Defined.

(** Names of 3 and of 50 bytes pass the length check, names of 2 and of
    51 bytes do not. *)
Example name_length_bounds :
  let run name := fst (@service.CreateModule latinTable 0 (request name "") initialStore) in
  snd (run "Inv") = None
  ∧ snd (run (repeatChar "a" 50)) = None
  ∧ run "In" = (None, Some ErrNameLength)
  ∧ run (repeatChar "a" 51) = (None, Some ErrNameLength).
Proof. vm_compute. repeat split. Qed.

(** C1 as stated fails: the name of five bytes below is not blank, its
    trimmed length is 1, outside [3, 50], and the request is accepted;
    the name of 51 bytes has a trimmed length of 50 and is rejected. *)
Lemma name_length_trimmed_counterexample :
  (strings.TrimSpace "  a  " ≠ EmptyString
   ∧ len (strings.TrimSpace "  a  ") = 1
   ∧ snd (fst (@service.CreateModule latinTable 0 (request "  a  " "") initialStore))
     = None)
  ∧ (len (strings.TrimSpace (repeatChar "a" 50 ++ " ")) = 50
     ∧ snd (fst (@service.CreateModule latinTable 0
                   (request (repeatChar "a" 50 ++ " ") "") initialStore))
       = Some ErrNameLength).
Proof. vm_compute. repeat split. discriminate. Qed.

Lemma validation_order_witness :
  let dto := request "inventory" (repeatChar "d" 201) in
  strings.TrimSpace (Request_Name dto) ≠ EmptyString
  ∧ 3 <= len (Request_Name dto) <= 50
  ∧ @IsModuleNameExists latinTable (Request_Name dto) 0 inventoryStore = (true, None)
  ∧ 200 < len (Request_Description dto)
  ∧ fst (@service.CreateModule latinTable 7 dto inventoryStore)
    = (None, Some ErrNameExists).
Proof.
  intros dto.
  assert (Hb : strings.TrimSpace (Request_Name dto) ≠ EmptyString)
    by (vm_compute; discriminate).
  assert (Hl : 3 <= len (Request_Name dto) <= 50) by (vm_compute; split; discriminate).
  assert (He : @IsModuleNameExists latinTable (Request_Name dto) 0 inventoryStore
               = (true, None)) by (vm_compute; reflexivity).
  assert (Hd : 200 < len (Request_Description dto)) by (vm_compute; reflexivity).
  repeat (split; [assumption | ]).
  exact (proj1 (proj2 (proj2 (@validation_order latinTable 7 dto inventoryStore))) Hb Hl He).
Defined.


(** A description of 200 bytes is accepted, one of 201 bytes is not. *)
Example description_length_bounds :
  let run d := fst (@service.CreateModule latinTable 7 (request "Billing" d) inventoryStore) in
  snd (run (repeatChar "d" 200)) = None
  ∧ run (repeatChar "d" 201) = (None, Some ErrDescriptionLength).
Proof. vm_compute. repeat split. Qed.

Lemma CreateModule_atomic_on_business_errors_witness :
  let dto := request "inventory" "" in
  @service.CreateModule latinTable 7 dto inventoryStore
  = ((None, Some ErrNameExists), inventoryStore)
  ∧ autoIncrementID (repo inventoryStore) = autoIncrementID (repo inventoryStore)
  ∧ ∀ m st0, repo st0 = repo inventoryStore ->
             repo (snd (repository.CreateModule m st0)) ≠ repo inventoryStore.
Proof.
  intros dto.
  assert (Hrun : @service.CreateModule latinTable 7 dto inventoryStore
                 = ((None, Some ErrNameExists), inventoryStore))
    by (vm_compute; reflexivity).
  split; [exact Hrun | ].
  exact (proj2 (proj2 (@CreateModule_atomic_on_business_errors latinTable 7 dto
                         inventoryStore None ErrNameExists inventoryStore Hrun
                         (or_intror (or_intror (or_introl eq_refl)))))).
Defined.

Lemma duplicate_name_conflict_witness :
  autoIncrementID (repo initialStore) ≠ 0
  ∧ strings.TrimSpace "inventory" ≠ EmptyString
  ∧ 3 <= len "inventory" <= 50
  ∧ @service.CreateModule latinTable 7 (request "inventory" "") inventoryStore
    = ((None, Some ErrNameExists), inventoryStore).
Proof.
  assert (Hid : autoIncrementID (repo initialStore) ≠ 0) by (vm_compute; discriminate).
  assert (Hb : strings.TrimSpace "inventory" ≠ EmptyString) by (vm_compute; discriminate).
  assert (Hl : 3 <= len "inventory" <= 50) by (vm_compute; split; discriminate).
  repeat (split; [assumption | ]).
  refine (proj1 (proj2 (@duplicate_name_conflict latinTable 100
            (request "Inventory" "stock") initialStore
            {| Response_ID := 1; Response_Name := "Inventory";
               Response_Description := "stock"; Response_IsActive := true;
               Response_CreatedAt := 100 |}
            inventoryStore 7 (request "inventory" "") Hid _ _ Hb Hl))).
  - vm_compute. reflexivity.
  - vm_compute. reflexivity.
Defined.

(** For every case table that has the documented orbit of k, "k" followed
    by the Kelvin sign equal-folds with "kk". *)
Lemma kelvin_equal_fold `{unicode.CaseTable} :
  unicode.SimpleFold 0x6B = 0x212A ->
  strings.EqualFold ("k" ++ kelvin) "kk" = true.
Proof.
  intros Hk. unfold strings.EqualFold.
  change (strings.equalFoldASCII _ _ _ 0) with (@inr bool Z 1).
  cbv beta iota.
  change (sliceFrom ("k" ++ kelvin) 1) with kelvin.
  change (sliceFrom "kk" 1) with "k"%string.
  change (String.length kelvin) with 3%nat.
  cbn [strings.equalFoldUnicode].
  change (len kelvin =? 0) with false.
  change (utf8.DecodeRuneInString kelvin) with (0x212A, 3).
  change (len "k" =? 0) with false.
  cbv beta iota.
  change (byteAt "k" 0 <? utf8.RuneSelf) with true.
  cbv beta iota.
  change (byteAt "k" 0) with 0x6B.
  change (0x6B =? 0x212A) with false. cbv beta iota.
  change (0x6B <? 0x212A) with true. cbv beta iota.
  change (0x212A <? utf8.RuneSelf) with false. cbv beta iota.
  rewrite Hk.
  assert (Hf : ∀ n, strings.foldOrbit (S n) 0x6B 0x212A 0x212A = 0x212A) by reflexivity.
  destruct (Z.to_nat 8490) eqn:Hn; [ | rewrite Hf; reflexivity].
  vm_compute in Hn. discriminate.
Qed.

(** C3 as stated fails: "k" followed by the Kelvin sign (4 bytes) is
    persisted; "kk" equal-folds with it, but has 2 bytes and gets
    [ErrNameLength], the earlier check, not [ErrNameExists]. *)
Lemma duplicate_name_counterexample :
  let first := @service.CreateModule latinTable 100 (request ("k" ++ kelvin) "") initialStore in
  snd (fst first) = None
  ∧ @strings.EqualFold latinTable ("k" ++ kelvin) "kk" = true
  ∧ fst (@service.CreateModule latinTable 101 (request "kk" "") (snd first))
    = (None, Some ErrNameLength).
Proof. vm_compute. repeat split. Qed.

(* ===================================================================== *)
(** ** The handler's error table                                          *)
(* ===================================================================== *)

Lemma storageFault_Is e target :
  storageFault e ->
  (∀ s, target ≠ errorString s) -> (∀ msg e', target ≠ wrapError msg e') ->
  errors.Is e target = false.
Proof.
  intros Hf Hs Hw. induction Hf as [s | msg e _ IH]; simpl.
  - rewrite bool_decide_eq_false_2; [done | ]. intros Heq. by apply (Hs s).
  - rewrite bool_decide_eq_false_2; [exact IH | ]. intros Heq. by apply (Hw msg e).
Qed.

Lemma wrapped_fault_Is prefix e target :
  storageFault e ->
  (∀ s, target ≠ errorString s) -> (∀ msg e', target ≠ wrapError msg e') ->
  errors.Is (fmt.Errorf_w prefix e) target = false.
Proof.
  intros Hf Hs Hw. apply storageFault_Is; [ | done | done].
  by constructor.
Qed.

(** Every error of the service is one [serviceError] describes. *)
Lemma service_CreateModule_serviceError `{unicode.CaseTable} now dto st e :
  snd (fst (service.CreateModule now dto st)) = Some e -> serviceError e.
Proof.
  rewrite CreateModule_error.
  destruct (String.eqb _ _); [intros [= <-]; constructor | ].
  destruct (_ || _); [intros [= <-]; constructor | ].
  destruct (fst _); [intros [= <-]; constructor | ].
  destruct (200 <? _); [intros [= <-]; constructor | discriminate].
Qed.

Lemma service_GetModuleById_serviceError id st e :
  snd (service.GetModuleById id st) = Some e -> serviceError e.
Proof.
  unfold service.GetModuleById, repository.GetModuleById.
  destruct (strconv.Atoi id) as [k | ].
  - destruct (data (repo st) !! k); simpl; [discriminate | ].
    intros [= <-]. constructor.
  - simpl. intros [= <-]. apply service_passed. constructor.
Qed.

(** C2. For every error the service returns, [handleServiceError] sends
    the status and the code of the table: 400 [VALIDATION_ERROR] for
    [ErrNameRequired], [ErrNameLength] and [ErrDescriptionLength], 409
    [RESOURCE_CONFLICT] for [ErrNameExists], 404 [NOT_FOUND] for
    [ErrNotFound], and 500 [INTERNAL_ERROR] for everything else, wrapped
    storage faults included. *)
Theorem handleServiceError_table timestamp ctx err mapper :
  serviceError err ->
  handlers.handleServiceError timestamp ctx err mapper =
  gin.JSON (fst (errorTable err))
    (fst (response.Mapper_Error mapper timestamp
            (snd (errorTable err))
            (response.StatusToMessage (fst (errorTable err)))
            (if fst (errorTable err) =? 400
             then Some {[ "name"%string := [errors.Error err] ]}
             else None)
            (fst (errorTable err))))
    ctx.
Proof.
  intros Herr. unfold handlers.handleServiceError.
  assert (Hfault : ∀ e, storageFault e ->
            errors.Is e ErrNameRequired = false
            ∧ errors.Is e ErrNameLength = false
            ∧ errors.Is e ErrDescriptionLength = false
            ∧ errors.Is e ErrNameExists = false
            ∧ errors.Is e ErrNotFound = false
            ∧ errorTable e = (500, "INTERNAL_ERROR"%string)).
  { intros e He. repeat split; try (by apply storageFault_Is).
    by destruct He. }
  destruct Herr as [ | | | | | e He | e He | e He]; try reflexivity.
  - assert (Hw : storageFault (fmt.Errorf_w "database error checking name: " e))
      by (by constructor).
    destruct (Hfault _ Hw) as (-> & -> & -> & -> & -> & ->). reflexivity.
  - assert (Hw : storageFault (fmt.Errorf_w "database error creating module: " e))
      by (by constructor).
    destruct (Hfault _ Hw) as (-> & -> & -> & -> & -> & ->). reflexivity.
  - destruct (Hfault _ He) as (-> & -> & -> & -> & -> & ->). reflexivity.
Qed.

Lemma handleServiceError_table_witness :
  let err := fmt.Errorf_w "database error creating module: " (errorString "disk full") in
  serviceError err
  ∧ gin.status (gin.Writer (handlers.handleServiceError "ts" (gin.newContext "rid") err
                              (response.NewResponseMapper "rid"))) = 500.
Proof.
  intros err.
  assert (Herr : serviceError err) by (apply service_creating; constructor).
  split; [exact Herr | ].
  rewrite (handleServiceError_table "ts" (gin.newContext "rid") err
             (response.NewResponseMapper "rid") Herr).
  vm_compute. reflexivity.
Defined.

(** The rows of the table on a fresh context. *)
Example handleServiceError_rows :
  let sent err :=
    let ctx := handlers.handleServiceError "ts" (gin.newContext "rid") err
                 (response.NewResponseMapper "rid") in
    (gin.status (gin.Writer ctx),
     (λ r, response.Code <$> response.Error r) <$> gin.body (gin.Writer ctx)) in
  sent ErrNameRequired = (400, [Some "VALIDATION_ERROR"%string])
  ∧ sent ErrNameLength = (400, [Some "VALIDATION_ERROR"%string])
  ∧ sent ErrDescriptionLength = (400, [Some "VALIDATION_ERROR"%string])
  ∧ sent ErrNameExists = (409, [Some "RESOURCE_CONFLICT"%string])
  ∧ sent ErrNotFound = (404, [Some "NOT_FOUND"%string])
  ∧ sent (errorString "invalid ID format") = (500, [Some "INTERNAL_ERROR"%string])
  ∧ sent (fmt.Errorf_w "database error checking name: " (errorString "timeout"))
    = (500, [Some "INTERNAL_ERROR"%string]).
Proof. vm_compute. repeat split. Qed.

(* ===================================================================== *)
(** ** Retrieval by id                                                    *)
(* ===================================================================== *)



(* ===================================================================== *)
(** ** The response envelope                                              *)
(* ===================================================================== *)

(** C7, as the code has it. An envelope never carries both [data] and
    [error]. [Error] and [NewErrorResponse] give [Success = false], an
    error and no data. [Success] and [NewSuccessResponse] give
    [Success = true], no error, and as [data] the argument they were
    given: present exactly when that argument is not nil. *)
Theorem envelope_data_xor_error m timestamp data message statusCode code details requestId :
  let s := fst (response.Mapper_Success m timestamp data message statusCode) in
  let e := fst (response.Mapper_Error m timestamp code message details statusCode) in
  let s' := response.NewSuccessResponse timestamp data message requestId in
  let e' := response.NewErrorResponse timestamp code message details requestId in
  (response.Success s = true ∧ response.Error s = None ∧ response.Data s = data
   ∧ (is_Some (response.Data s) <-> is_Some data))
  ∧ (response.Success e = false ∧ response.Data e = None
     ∧ is_Some (response.Error e))
  ∧ (response.Success s' = true ∧ response.Error s' = None
     ∧ response.Data s' = data)
  ∧ (response.Success e' = false ∧ response.Data e' = None
     ∧ is_Some (response.Error e'))
  ∧ snd (response.Mapper_Success m timestamp data message statusCode) = statusCode
  ∧ snd (response.Mapper_Error m timestamp code message details statusCode) = statusCode
  ∧ ∀ r, r ∈ [s; e; s'; e'] ->
         ¬ (is_Some (response.Data r) ∧ is_Some (response.Error r)).
Proof.
  cbn zeta. simpl. repeat split; try (by eexists); try done.
  intros r Hr [Hd He].
  repeat (apply elem_of_cons in Hr as [-> | Hr]);
    [ | | | | by apply elem_of_nil in Hr]; simpl in *;
    first [by destruct He | by destruct Hd].
Qed.

(** C7 as stated fails: [Success] accepts a nil [data], and the envelope
    then has neither [data] nor [error]. *)
Lemma envelope_neither_counterexample :
  let r := fst (response.Mapper_Success (response.NewResponseMapper "rid") "ts"
                  None "Operation completed successfully" 200) in
  response.Success r = true ∧ response.Data r = None ∧ response.Error r = None.
Proof. repeat split. Qed.

(* ===================================================================== *)
(** ** The exception middleware                                           *)
(* ===================================================================== *)

(** C8, as the code has it. When the rest of the chain panics, what the
    middleware sends does not depend on the panic value: it is the
    envelope with code [INTERNAL_ERROR], the message of status 500, no
    data and no details, written with status 500 (the value goes to the
    log only). When the chain returns with attached errors, the envelope
    has code [INTERNAL_ERROR] and no data, and its details carry the
    message of the first attached error. *)
Theorem panic_envelope_independent timestamp next1 next2 ctx ctx' v1 v2 :
  next1 ctx = (ctx', gin.panicked v1) ->
  next2 ctx = (ctx', gin.panicked v2) ->
  let sent := fst (middleware.ExceptionHandler timestamp next1 ctx) in
  sent = fst (middleware.ExceptionHandler timestamp next2 ctx)
  ∧ sent = gin.Abort
             (gin.JSON 500
                (internalErrorEnvelope timestamp (gin.request_id ctx)
                   "An unexpected error occurred" None)
                ctx')
  ∧ (gin.written (gin.Writer ctx') = false ->
     gin.status (gin.Writer sent) = 500
     ∧ gin.body (gin.Writer sent)
       = gin.body (gin.Writer ctx')
         ++ [internalErrorEnvelope timestamp (gin.request_id ctx)
               "An unexpected error occurred" None])
  ∧ snd (middleware.ExceptionHandler timestamp next1 ctx)
    = [("[ERROR] [" ++ gin.request_id ctx ++ "] Unhandled panic: " ++ v1)%string]
  ∧ ∀ next3 ctx3 err errs,
      next3 ctx = (ctx3, gin.returned) -> gin.Errors ctx3 = err :: errs ->
      let statusCode :=
        if gin.status (gin.Writer ctx3) =? 200 then 500
        else gin.status (gin.Writer ctx3) in
      fst (middleware.ExceptionHandler timestamp next3 ctx)
      = gin.JSON statusCode
          (internalErrorEnvelope timestamp (gin.request_id ctx)
             (response.StatusToMessage statusCode)
             (Some {[ "error"%string := [errors.Error err] ]}))
          ctx3.
Proof.
  intros H1 H2. cbn zeta. unfold middleware.ExceptionHandler.
  rewrite H1, H2. cbn [fst snd].
  split; [reflexivity | split; [reflexivity | split; [ | split; [reflexivity | ]]]].
  - intros Hw. unfold gin.Abort, gin.JSON, gin.WriteHeader. simpl.
    destruct (gin.status (gin.Writer ctx') =? 500) eqn:Hs; simpl.
    + apply Z.eqb_eq in Hs. by split.
    + rewrite Hw. by split.
  - intros next3 ctx3 err errs H3 He. rewrite H3, He. reflexivity.
Qed.

Lemma panic_envelope_independent_witness :
  let ctx := gin.newContext "rid" in
  panicsWith "dsn=postgres://admin:secret@db" ctx
  = (ctx, gin.panicked "dsn=postgres://admin:secret@db")
  ∧ panicsWith "index out of range" ctx = (ctx, gin.panicked "index out of range")
  ∧ fst (middleware.ExceptionHandler "ts" (panicsWith "dsn=postgres://admin:secret@db") ctx)
    = fst (middleware.ExceptionHandler "ts" (panicsWith "index out of range") ctx).
Proof.
  intros ctx. split; [reflexivity | split; [reflexivity | ]].
  exact (proj1 (panic_envelope_independent "ts"
                  (panicsWith "dsn=postgres://admin:secret@db")
                  (panicsWith "index out of range") ctx ctx
                  "dsn=postgres://admin:secret@db" "index out of range"
                  eq_refl eq_refl)).
Defined.

(** C8 as stated fails: two runs that differ only in the message of the
    attached error send different bodies, each with its message in the
    details of the envelope. *)
Lemma attached_error_counterexample :
  let ctx := gin.newContext "rid" in
  let sent msg :=
    gin.body (gin.Writer (fst (middleware.ExceptionHandler "ts"
                                 (attaches (errorString msg)) ctx))) in
  sent "dial tcp 10.0.0.5:5432: refused"
  = [internalErrorEnvelope "ts" "rid" "An unexpected error occurred"
       (Some {[ "error"%string := ["dial tcp 10.0.0.5:5432: refused"%string] ]})]
  ∧ sent "disk full"
    = [internalErrorEnvelope "ts" "rid" "An unexpected error occurred"
         (Some {[ "error"%string := ["disk full"%string] ]})]
  ∧ sent "dial tcp 10.0.0.5:5432: refused" ≠ sent "disk full".
Proof.
  cbn zeta. split; [reflexivity | split; [reflexivity | ]].
  intros Heq.
  assert (Hd : ∀ a b : response.APIResponse, [a] = [b] ->
                 (response.Details <$> response.Error a)
                 = (response.Details <$> response.Error b))
    by (by intros a b [= ->]).
  apply Hd in Heq. vm_compute in Heq. discriminate.
Qed.

(* ===================================================================== *)
(** ** Strings: folding, trimming, decimal numerals                       *)
(* ===================================================================== *)

Lemma substring_length_le n m s : (String.length (substring n m s) <= m)%nat.
Proof.
  revert n m. induction s as [ | c s IH]; intros [ | n] [ | m]; simpl; try lia.
  - specialize (IH 0%nat m). lia.
  - apply IH.
  - apply IH.
Qed.

Lemma sliceFrom_length s k :
  1 <= k -> 1 <= len s -> (String.length (sliceFrom s k) < String.length s)%nat.
Proof.
  intros Hk Hs. unfold sliceFrom, slice, len in *.
  pose proof (substring_length_le (Z.to_nat k)
                (Z.to_nat (Z.of_nat (String.length s) - k)) s).
  lia.
Qed.

Lemma DecodeRuneInString_size s :
  1 <= len s -> 1 <= snd (utf8.DecodeRuneInString s).
Proof.
  intros Hs. unfold utf8.DecodeRuneInString.
  destruct (len s <? 1) eqn:Hl; [apply Z.ltb_lt in Hl; lia | ].
  destruct (utf8.first _); simpl; try lia.
  repeat (match goal with |- context [if ?b then _ else _] => destruct b end;
          simpl; try lia).
Qed.

Lemma DecodeRuneInString_ascii s :
  1 <= len s -> (byteAt s 0 <? utf8.RuneSelf) = true ->
  utf8.DecodeRuneInString s = (byteAt s 0, 1).
Proof.
  intros Hs Hb. unfold utf8.DecodeRuneInString.
  destruct (len s <? 1) eqn:Hl; [apply Z.ltb_lt in Hl; lia | ].
  unfold utf8.first. unfold utf8.RuneSelf in Hb. by rewrite Hb.
Qed.

Section EqualFoldFacts.
Context `{unicode.CaseTable}.

Lemma equalFoldASCII_refl fuel s i :
  strings.equalFoldASCII fuel s s i = inl true
  ∨ ∃ j, strings.equalFoldASCII fuel s s i = inr j.
Proof.
  revert i. induction fuel as [ | fuel IH]; intros i; simpl.
  - left. by rewrite Z.eqb_refl.
  - destruct (_ && _); [ | left; by rewrite Z.eqb_refl].
    destruct (utf8.RuneSelf <=? _); [right; by eexists | ].
    rewrite Z.eqb_refl. apply IH.
Qed.

Lemma equalFoldUnicode_refl fuel s :
  (String.length s <= fuel)%nat -> strings.equalFoldUnicode fuel s s = true.
Proof.
  revert s. induction fuel as [ | fuel IH]; intros s Hlen; simpl.
  - unfold len. apply Z.eqb_eq. lia.
  - destruct (len s =? 0) eqn:Hs; [reflexivity | ].
    apply Z.eqb_neq in Hs.
    assert (Hpos : 1 <= len s) by (unfold len in *; lia).
    pose proof (DecodeRuneInString_size s Hpos) as Hsize.
    destruct (byteAt s 0 <? utf8.RuneSelf) eqn:Hb.
    + rewrite (DecodeRuneInString_ascii s Hpos Hb).
      rewrite Z.eqb_refl. apply IH.
      pose proof (sliceFrom_length s 1 ltac:(lia) Hpos). lia.
    + destruct (utf8.DecodeRuneInString s) as [r size] eqn:Hd. simpl in Hsize.
      rewrite Z.eqb_refl. apply IH.
      pose proof (sliceFrom_length s size Hsize Hpos). lia.
Qed.

(** [strings.EqualFold] holds between a string and itself, whatever its
    bytes and whatever the case table. *)
Lemma EqualFold_refl s : strings.EqualFold s s = true.
Proof.
  unfold strings.EqualFold.
  destruct (equalFoldASCII_refl (String.length s) s 0) as [-> | [j ->]];
    [reflexivity | ].
  by apply equalFoldUnicode_refl.
Qed.

End EqualFoldFacts.

(** [strconv.Itoa] is the decimal numeral [pretty] prints. Reading back
    the digits of a numeral gives the number. *)
Lemma digits_pretty_N_char d s n :
  (d < 10)%N ->
  strconv.digits (String (pretty_N_char d) s) n
  = strconv.digits s (n * 10 + Z.of_N d).
Proof.
  intros Hd.
  assert (Hcase : (d = 0 ∨ d = 1 ∨ d = 2 ∨ d = 3 ∨ d = 4 ∨ d = 5 ∨ d = 6
                   ∨ d = 7 ∨ d = 8 ∨ d = 9)%N) by lia.
  destruct Hcase as [-> | [-> | [-> | [-> | [-> | [-> | [-> | [-> | [-> | ->]]]]]]]]];
    reflexivity.
Qed.

Lemma digits_pretty_N_go x :
  ∃ p, 0 < p ∧ ∀ s n,
    strconv.digits (pretty_N_go x s) n = strconv.digits s (n * p + Z.of_N x).
Proof.
  induction (N.lt_wf_0 x) as [x _ IH].
  destruct (decide (x = 0%N)) as [-> | Hx].
  - exists 1. split; [lia | ]. intros s n. rewrite pretty_N_go_0. f_equal. lia.
  - assert (Hpos : (0 < x)%N) by lia.
    destruct (IH (x `div` 10)%N) as (p & Hp & Hdigits).
    { by apply N.div_lt. }
    exists (p * 10). split; [lia | ]. intros s n.
    rewrite pretty_N_go_step by done.
    rewrite Hdigits, digits_pretty_N_char by (by apply N.mod_lt).
    f_equal.
    rewrite (N.div_mod x 10) at 3 by done.
    rewrite N2Z.inj_add, N2Z.inj_mul. simpl Z.of_N. lia.
Qed.

Lemma isDigit_pretty_N_char d :
  (d < 10)%N -> strconv.isDigit (byteOf (pretty_N_char d)) = true.
Proof.
  intros Hd.
  assert (Hcase : (d = 0 ∨ d = 1 ∨ d = 2 ∨ d = 3 ∨ d = 4 ∨ d = 5 ∨ d = 6
                   ∨ d = 7 ∨ d = 8 ∨ d = 9)%N) by lia.
  destruct Hcase as [-> | [-> | [-> | [-> | [-> | [-> | [-> | [-> | [-> | ->]]]]]]]]];
    reflexivity.
Qed.

(** A printed numeral starts with a digit and is not empty. *)
Lemma pretty_N_go_head x s :
  (0 < x)%N ->
  ∃ c rest, pretty_N_go x s = String c rest
            ∧ strconv.isDigit (byteOf c) = true.
Proof.
  revert s. induction (N.lt_wf_0 x) as [x _ IH]; intros s Hpos.
  rewrite pretty_N_go_step by done.
  destruct (decide (x `div` 10 = 0)%N) as [-> | Hq].
  - rewrite pretty_N_go_0. eexists _, _. split; [reflexivity | ].
    apply isDigit_pretty_N_char. by apply N.mod_lt.
  - apply IH; [by apply N.div_lt | by apply N.neq_0_lt_0].
Qed.

Lemma Atoi_pretty_pos (x : positive) :
  Z.pos x <= maxInt -> strconv.Atoi (pretty (Z.pos x)) = Some (Z.pos x).
Proof.
  intros Hx. unfold pretty, pretty_Z, pretty, pretty_positive, pretty, pretty_N.
  rewrite decide_False by done.
  destruct (pretty_N_go_head (N.pos x) "" ltac:(lia)) as (c & rest & Heq & Hc).
  destruct (digits_pretty_N_go (N.pos x)) as (p & _ & Hd).
  specialize (Hd "" 0). rewrite Heq in Hd. rewrite Heq.
  unfold strconv.Atoi.
  assert (Hsign : (byteOf c =? 45) || (byteOf c =? 43) = false).
  { unfold strconv.isDigit in Hc. apply andb_true_iff in Hc as [H1 H2].
    apply Z.leb_le in H1. apply orb_false_intro; apply Z.eqb_neq; lia. }
  rewrite Hsign.
  assert (Hlen : (len (String c rest) <? 1) = false).
  { apply Z.ltb_ge. unfold len. simpl. lia. }
  rewrite Hlen, Hd. simpl strconv.digits.
  assert (Hneg : (byteOf c =? 45) = false) by (by apply orb_false_elim in Hsign as [? _]).
  rewrite Hneg. simpl Z.of_N. replace (0 * p + Z.pos x) with (Z.pos x) by lia.
  assert (Hr : (minInt <=? Z.pos x) && (Z.pos x <=? maxInt) = true).
  { apply andb_true_iff. split; apply Z.leb_le; [unfold minInt; lia | done]. }
  by rewrite Hr.
Qed.

Lemma Atoi_pretty_neg (x : positive) :
  minInt <= Z.neg x -> strconv.Atoi (pretty (Z.neg x)) = Some (Z.neg x).
Proof.
  intros Hx. unfold pretty, pretty_Z, pretty, pretty_positive, pretty, pretty_N.
  rewrite decide_False by done.
  destruct (pretty_N_go_head (N.pos x) "" ltac:(lia)) as (c & rest & Heq & Hc).
  destruct (digits_pretty_N_go (N.pos x)) as (p & _ & Hd).
  specialize (Hd "" 0). rewrite Heq in Hd. rewrite Heq.
  change ("-" +:+ String c rest) with (String "-" (String c rest)).
  unfold strconv.Atoi.
  change (byteOf "-") with 45. simpl ((45 =? 45) || _). cbv iota.
  assert (Hlen : (len (String c rest) <? 1) = false).
  { apply Z.ltb_ge. unfold len. simpl. lia. }
  rewrite Hlen, Hd. simpl strconv.digits. simpl (45 =? 45). cbv iota.
  simpl Z.of_N. replace (- (0 * p + Z.pos x)) with (Z.neg x) by lia.
  assert (Hr : (minInt <=? Z.neg x) && (Z.neg x <=? maxInt) = true).
  { apply andb_true_iff. split; apply Z.leb_le; [done | unfold maxInt; lia]. }
  by rewrite Hr.
Qed.

(** [strconv.Atoi(strconv.Itoa(z)) = z] for every [int]. *)
Lemma Atoi_Itoa z :
  minInt <= z <= maxInt -> strconv.Atoi (pretty z) = Some z.
Proof.
  intros Hz. destruct z as [ | x | x].
  - reflexivity.
  - apply Atoi_pretty_pos. lia.
  - apply Atoi_pretty_neg. lia.
Qed.

Lemma byteAt_cons c s i :
  0 <= i -> byteAt (String c s) (i + 1) = byteAt s i.
Proof.
  intros Hi. unfold byteAt.
  destruct (i + 1 <? 0) eqn:H1; [apply Z.ltb_lt in H1; lia | ].
  destruct (i <? 0) eqn:H2; [apply Z.ltb_lt in H2; lia | ].
  replace (Z.to_nat (i + 1)) with (S (Z.to_nat i)) by lia. reflexivity.
Qed.

Lemma len_cons c s : len (String c s) = len s + 1.
Proof. unfold len. simpl. lia. Qed.

Lemma len_nonneg s : 0 <= len s.
Proof. unfold len. lia. Qed.

Lemma allAsciiSpace_byteAt s i :
  allAsciiSpace s = true -> 0 <= i < len s ->
  (utf8.RuneSelf <=? byteAt s i) = false
  ∧ strings.asciiSpace (byteAt s i) = true.
Proof.
  revert i. induction s as [ | c s IH]; intros i Hall Hi.
  - unfold len in Hi. simpl in Hi. lia.
  - simpl in Hall. apply andb_true_iff in Hall as [Hc Hs].
    destruct (decide (i = 0)) as [-> | Hne].
    + change (byteAt (String c s) 0) with (byteOf c). split; [ | exact Hc].
      apply Z.leb_gt. unfold strings.asciiSpace in Hc. unfold utf8.RuneSelf.
      repeat (apply orb_true_iff in Hc as [Hc | Hc]);
        apply Z.eqb_eq in Hc; lia.
    + rewrite len_cons in Hi.
      replace i with (i - 1 + 1) by lia. rewrite byteAt_cons by lia.
      apply IH; [exact Hs | lia].
Qed.

Lemma trimSpaceStart_blank s fuel start :
  allAsciiSpace s = true -> 0 <= start <= len s ->
  len s - start <= Z.of_nat fuel ->
  strings.trimSpaceStart fuel s start = (len s, false).
Proof.
  intros Hall. revert start. induction fuel as [ | fuel IH]; intros start Hs Hf.
  - simpl. f_equal. lia.
  - simpl. destruct (len s <=? start) eqn:Hl.
    + apply Z.leb_le in Hl. f_equal. lia.
    + apply Z.leb_gt in Hl.
      destruct (allAsciiSpace_byteAt s start Hall ltac:(lia)) as [-> ->].
      apply IH; lia.
Qed.

Lemma slice_empty s k : slice s k k = EmptyString.
Proof.
  unfold slice. rewrite Z.sub_diag. change (Z.to_nat 0) with 0%nat.
  pose proof (substring_length_le (Z.to_nat k) 0 s) as Hl.
  destruct (substring (Z.to_nat k) 0 s); [reflexivity | simpl in Hl; lia].
Qed.

(** [strings.TrimSpace] empties a string made of ASCII white space only
    (space, tab, line feed, vertical tab, form feed, carriage return). *)
Lemma TrimSpace_blank s : allAsciiSpace s = true -> strings.TrimSpace s = EmptyString.
Proof.
  intros Hall. unfold strings.TrimSpace.
  rewrite (trimSpaceStart_blank s (String.length s) 0 Hall)
    by (pose proof (len_nonneg s); unfold len in *; lia).
  assert (Hstop : strings.trimSpaceStop (String.length s) s (len s) (len s)
                  = (len s, false)).
  { destruct (String.length s); simpl; [reflexivity | ].
    by rewrite Z.leb_refl. }
  rewrite Hstop. apply slice_empty.
Qed.

(* ===================================================================== *)
(** ** The service: accepted requests, duplicates, retrieval              *)
(* ===================================================================== *)

Section ServiceExtras.
Context `{unicode.CaseTable}.

(** The outcome of an accepted request, written out. *)
Lemma CreateModule_accepted now dto st :
  String.eqb (strings.TrimSpace (Request_Name dto)) "" = false ->
  (len (Request_Name dto) <? 3) || (50 <? len (Request_Name dto)) = false ->
  fst (IsModuleNameExists (Request_Name dto) 0 st) = false ->
  (200 <? len (Request_Description dto)) = false ->
  service.CreateModule now dto st =
  ((Some {| Response_ID := autoIncrementID (repo st);
            Response_Name := Request_Name dto;
            Response_Description := Request_Description dto;
            Response_IsActive := Request_IsActive dto;
            Response_CreatedAt := now |}, None),
   {| heap := <[fresh (dom (heap st)) :=
                  {| ID := autoIncrementID (repo st);
                     Name := Request_Name dto;
                     Description := Request_Description dto;
                     IsActive := Request_IsActive dto;
                     CreatedAt := now |}]> (heap st);
      repo := {| data := <[autoIncrementID (repo st) := fresh (dom (heap st))]>
                           (data (repo st));
                 autoIncrementID := wrapInt (autoIncrementID (repo st) + 1) |} |}).
Proof.
  intros Hb Hl He Hd. unfold service.CreateModule.
  rewrite Hb, Hl. unfold IsModuleNameExists in *. simpl in He. rewrite He, Hd.
  unfold new, repository.CreateModule. cbn [fst snd heap repo data autoIncrementID].
  rewrite !deref_insert_eq, insert_insert_eq. reflexivity.
Qed.

(** The four checks, as booleans, decide between an error and the
    accepted outcome. *)
Lemma CreateModule_cases now dto st :
  (∃ e, service.CreateModule now dto st = ((None, Some e), st)
        ∧ (e = ErrNameRequired ∨ e = ErrNameLength ∨ e = ErrNameExists
           ∨ e = ErrDescriptionLength))
  ∨ (String.eqb (strings.TrimSpace (Request_Name dto)) "" = false
     ∧ (len (Request_Name dto) <? 3) || (50 <? len (Request_Name dto)) = false
     ∧ fst (IsModuleNameExists (Request_Name dto) 0 st) = false
     ∧ (200 <? len (Request_Description dto)) = false).
Proof.
  unfold service.CreateModule, IsModuleNameExists. cbn [fst].
  destruct (String.eqb _ _); [left; eexists; split; [reflexivity | tauto] | ].
  destruct (_ || _); [left; eexists; split; [reflexivity | tauto] | ].
  destruct (existsb _ _); [left; eexists; split; [reflexivity | tauto] | ].
  destruct (200 <? _); [left; eexists; split; [reflexivity | tauto] | ].
  right. tauto.
Qed.

(** X1. [CreateModule] accepts a request exactly when the name is not
    blank, its length is within [3, 50], no stored name equal-folds with
    it, and the description has at most 200 bytes. The response then
    repeats the request, with the id the counter had and [CreatedAt] the
    time of the call; the store gains that one entity under that id and
    the counter moves on by one. *)
Theorem CreateModule_accepts now dto st :
  let name := Request_Name dto in
  let valid :=
    strings.TrimSpace name ≠ EmptyString
    ∧ 3 <= len name <= 50
    ∧ fst (IsModuleNameExists name 0 st) = false
    ∧ len (Request_Description dto) <= 200 in
  (snd (fst (service.CreateModule now dto st)) = None <-> valid)
  ∧ (valid ->
     fst (service.CreateModule now dto st)
     = (Some {| Response_ID := autoIncrementID (repo st);
                Response_Name := name;
                Response_Description := Request_Description dto;
                Response_IsActive := Request_IsActive dto;
                Response_CreatedAt := now |}, None)
     ∧ data (repo (snd (service.CreateModule now dto st)))
       = <[autoIncrementID (repo st) := fresh (dom (heap st))]> (data (repo st))
     ∧ autoIncrementID (repo (snd (service.CreateModule now dto st)))
       = wrapInt (autoIncrementID (repo st) + 1)
     ∧ heap (snd (service.CreateModule now dto st)) !! fresh (dom (heap st))
       = Some {| ID := autoIncrementID (repo st);
                 Name := name;
                 Description := Request_Description dto;
                 IsActive := Request_IsActive dto;
                 CreatedAt := now |}
     ∧ ∀ p, is_Some (heap st !! p) ->
            heap (snd (service.CreateModule now dto st)) !! p = heap st !! p).
Proof.
  cbn zeta.
  assert (Hvalid : ∀ (Hv : strings.TrimSpace (Request_Name dto) ≠ EmptyString
                          ∧ 3 <= len (Request_Name dto) <= 50
                          ∧ fst (IsModuleNameExists (Request_Name dto) 0 st) = false
                          ∧ len (Request_Description dto) <= 200),
             String.eqb (strings.TrimSpace (Request_Name dto)) "" = false
             ∧ (len (Request_Name dto) <? 3) || (50 <? len (Request_Name dto)) = false
             ∧ (200 <? len (Request_Description dto)) = false).
  { intros (Hb & Hl & _ & Hd). split; [by apply eqb_empty_false | ].
    split; [by apply length_check_false | by apply Z.ltb_ge]. }
  split.
  - rewrite CreateModule_error. split.
    + destruct (String.eqb _ _) eqn:Hb; [discriminate | ].
      destruct (_ || _) eqn:Hl; [discriminate | ].
      destruct (fst _) eqn:He; [discriminate | ].
      destruct (200 <? _) eqn:Hd; [discriminate | ]. intros _.
      apply String.eqb_neq in Hb. apply orb_false_elim in Hl as [H1 H2].
      apply Z.ltb_ge in H1, H2, Hd. repeat split; try done; lia.
    + intros Hv. destruct (Hvalid Hv) as (-> & -> & ->).
      destruct Hv as (_ & _ & -> & _). reflexivity.
  - intros Hv. destruct (Hvalid Hv) as (Hb & Hl & Hd).
    destruct Hv as (_ & _ & He & _).
    rewrite (CreateModule_accepted now dto st Hb Hl He Hd).
    cbn [fst snd heap repo data autoIncrementID].
    repeat split.
    + by rewrite lookup_insert_eq.
    + intros p [x Hp]. rewrite lookup_insert_ne; [done | ].
      intros <-. by rewrite fresh_unallocated in Hp.
Qed.

(** X2. A name that has been persisted is refused afterwards: a second
    request with the same name gets [ErrNameExists] and leaves the store
    as it was, whatever bytes the name has and whatever the rest of the
    request says. (The repository's next id was not 0.) *)
Theorem same_name_conflict now1 dto1 st resp1 st1 now2 dto2 :
  autoIncrementID (repo st) ≠ 0 ->
  service.CreateModule now1 dto1 st = ((Some resp1, None), st1) ->
  Request_Name dto2 = Request_Name dto1 ->
  service.CreateModule now2 dto2 st1 = ((None, Some ErrNameExists), st1).
Proof.
  intros Hid Hfirst Hname.
  destruct (CreateModule_persisted _ _ _ _ _ Hfirst) as (p & Hp & Hn & _).
  assert (He : IsModuleNameExists (Request_Name dto2) 0 st1 = (true, None)).
  { eapply IsModuleNameExists_held; [exact Hp | | exact Hid].
    rewrite Hn, Hname. apply EqualFold_refl. }
  destruct (CreateModule_cases now1 dto1 st) as [(e & Herr & _) | (Hb & Hl & _)].
  { rewrite Herr in Hfirst. discriminate. }
  unfold service.CreateModule. by rewrite Hname, Hb, Hl, <- Hname, He.
Qed.

(** X3. A name made of ASCII white space only, the empty name included,
    gets [ErrNameRequired], whatever its length. *)
Theorem blank_name_required now dto st :
  allAsciiSpace (Request_Name dto) = true ->
  service.CreateModule now dto st = ((None, Some ErrNameRequired), st).
Proof.
  intros Hblank. unfold service.CreateModule.
  by rewrite (TrimSpace_blank _ Hblank).
Qed.

(** X4. Create, then get: [GetModuleById] on the decimal numeral of the
    id just returned, and on any string [strconv.Atoi] reads as that id,
    gives back the response of the creation, field for field. *)
Theorem create_then_get now dto st resp st1 :
  minInt <= autoIncrementID (repo st) <= maxInt ->
  service.CreateModule now dto st = ((Some resp, None), st1) ->
  service.GetModuleById (pretty (Response_ID resp)) st1 = (Some resp, None)
  ∧ ∀ id, strconv.Atoi id = Some (Response_ID resp) ->
          service.GetModuleById id st1 = (Some resp, None).
Proof.
  intros Hrange Hrun.
  destruct (CreateModule_cases now dto st) as [(e & Herr & _) | (Hb & Hl & He & Hd)].
  { rewrite Herr in Hrun. discriminate. }
  rewrite (CreateModule_accepted now dto st Hb Hl He Hd) in Hrun.
  injection Hrun as <- <-.
  assert (Hget : ∀ id, strconv.Atoi id = Some (autoIncrementID (repo st)) ->
            service.GetModuleById id
              {| heap := <[fresh (dom (heap st)) :=
                             {| ID := autoIncrementID (repo st);
                                Name := Request_Name dto;
                                Description := Request_Description dto;
                                IsActive := Request_IsActive dto;
                                CreatedAt := now |}]> (heap st);
                 repo := {| data := <[autoIncrementID (repo st) := fresh (dom (heap st))]>
                                      (data (repo st));
                            autoIncrementID := wrapInt (autoIncrementID (repo st) + 1) |} |}
            = (Some {| Response_ID := autoIncrementID (repo st);
                       Response_Name := Request_Name dto;
                       Response_Description := Request_Description dto;
                       Response_IsActive := Request_IsActive dto;
                       Response_CreatedAt := now |}, None)).
  { intros id Hid. unfold service.GetModuleById, repository.GetModuleById.
    rewrite Hid. cbn [heap repo data].
    by rewrite lookup_insert_eq, deref_insert_eq. }
  split; [ | exact Hget].
  apply Hget. cbn [Response_ID]. by apply Atoi_Itoa.
Qed.

(** The store [CreateModule] leaves is the one it got, or the one of the
    accepted outcome. *)
Lemma CreateModule_store now dto st :
  snd (service.CreateModule now dto st) = st
  ∨ snd (service.CreateModule now dto st)
    = {| heap := <[fresh (dom (heap st)) :=
                     {| ID := autoIncrementID (repo st);
                        Name := Request_Name dto;
                        Description := Request_Description dto;
                        IsActive := Request_IsActive dto;
                        CreatedAt := now |}]> (heap st);
         repo := {| data := <[autoIncrementID (repo st) := fresh (dom (heap st))]>
                              (data (repo st));
                    autoIncrementID := wrapInt (autoIncrementID (repo st) + 1) |} |}.
Proof.
  destruct (CreateModule_cases now dto st) as [(e & Herr & _) | (Hb & Hl & He & Hd)].
  - left. by rewrite Herr.
  - right. by rewrite (CreateModule_accepted now dto st Hb Hl He Hd).
Qed.

(** X5. Records are not touched by later creations: in a store that
    satisfies the repository invariant, whatever [GetModuleById] returns
    for an id it still returns after any [CreateModule] call, accepted
    or refused. *)
Theorem existing_record_preserved now dto st id r :
  idsConsistent st ->
  service.GetModuleById id st = (Some r, None) ->
  service.GetModuleById id (snd (service.CreateModule now dto st)) = (Some r, None).
Proof.
  intros Hinv Hget.
  destruct (CreateModule_store now dto st) as [-> | ->]; [exact Hget | ].
  revert Hget. unfold service.GetModuleById, repository.GetModuleById.
  destruct (strconv.Atoi id) as [k | ]; [ | discriminate].
  destruct (data (repo st) !! k) as [p | ] eqn:Hk; [ | discriminate].
  destruct (Hinv k p Hk) as ([x Hx] & _ & Hr).
  cbn [heap repo data]. rewrite lookup_insert_ne by lia. rewrite Hk.
  rewrite deref_insert_ne; [done | ].
  intros <-. by rewrite fresh_unallocated in Hx.
Qed.

(** X6. Two creations accepted one after the other get consecutive ids,
    as long as the counter has not reached the largest [int]. *)
Theorem successive_ids now1 dto1 st resp1 st1 now2 dto2 resp2 st2 :
  minInt <= autoIncrementID (repo st) < maxInt ->
  service.CreateModule now1 dto1 st = ((Some resp1, None), st1) ->
  service.CreateModule now2 dto2 st1 = ((Some resp2, None), st2) ->
  Response_ID resp1 = autoIncrementID (repo st)
  ∧ Response_ID resp2 = Response_ID resp1 + 1.
Proof.
  intros Hrange H1 H2.
  destruct (CreateModule_cases now1 dto1 st) as [(e & Herr & _) | (Hb & Hl & He & Hd)].
  { rewrite Herr in H1. discriminate. }
  rewrite (CreateModule_accepted now1 dto1 st Hb Hl He Hd) in H1.
  injection H1 as <- <-.
  destruct (CreateModule_cases now2 dto2
              {| heap := <[fresh (dom (heap st)) :=
                             {| ID := autoIncrementID (repo st);
                                Name := Request_Name dto1;
                                Description := Request_Description dto1;
                                IsActive := Request_IsActive dto1;
                                CreatedAt := now1 |}]> (heap st);
                 repo := {| data := <[autoIncrementID (repo st) := fresh (dom (heap st))]>
                                      (data (repo st));
                            autoIncrementID := wrapInt (autoIncrementID (repo st) + 1) |} |})
    as [(e & Herr & _) | (Hb2 & Hl2 & He2 & Hd2)].
  { rewrite Herr in H2. discriminate. }
  rewrite (CreateModule_accepted _ _ _ Hb2 Hl2 He2 Hd2) in H2.
  injection H2 as <- _. cbn [Response_ID repo autoIncrementID].
  split; [reflexivity | ].
  apply wrapInt_in_range. unfold minInt, maxInt in *. lia.
Qed.

(** X7. [IsModuleNameExists] answers true exactly when some stored
    record other than [excludeId] has a name that equal-folds with the
    one asked; it never returns an error, and on an empty repository it
    answers false. *)
Theorem IsModuleNameExists_spec name excludeId st :
  (fst (IsModuleNameExists name excludeId st) = true
   <-> ∃ k p, data (repo st) !! k = Some p
              ∧ strings.EqualFold (Name (deref (heap st) p)) name = true
              ∧ k ≠ excludeId)
  ∧ snd (IsModuleNameExists name excludeId st) = None
  ∧ (data (repo st) = ∅ -> fst (IsModuleNameExists name excludeId st) = false).
Proof.
  unfold IsModuleNameExists. cbn [fst snd]. split; [ | split; [reflexivity | ]].
  - rewrite existsb_exists. split.
    + intros ([k p] & Hin & Hp). exists k, p.
      apply list_elem_of_In, elem_of_map_to_list in Hin.
      apply andb_true_iff in Hp as [Hf Hk].
      apply negb_true_iff, Z.eqb_neq in Hk. done.
    + intros (k & p & Hk & Hf & Hne). exists (k, p). split.
      * by apply list_elem_of_In, elem_of_map_to_list.
      * rewrite Hf. simpl. by apply negb_true_iff, Z.eqb_neq.
  - intros ->. by rewrite map_to_list_empty.
Qed.

End ServiceExtras.

(* ===================================================================== *)
(** ** The handlers and the middleware chain                              *)
(* ===================================================================== *)

(** [ctx.JSON] on a context nothing has been written to. *)
Lemma JSON_unwritten code obj ctx :
  gin.written (gin.Writer ctx) = false ->
  0 < code -> gin.bodyAllowedForStatus code = true ->
  gin.status (gin.Writer (gin.JSON code obj ctx)) = code
  ∧ gin.body (gin.Writer (gin.JSON code obj ctx)) = gin.body (gin.Writer ctx) ++ [obj]
  ∧ gin.written (gin.Writer (gin.JSON code obj ctx)) = true.
Proof.
  intros Hw Hc Hb. unfold gin.JSON, gin.WriteHeader. rewrite Hb, Hw.
  apply Z.ltb_lt in Hc. rewrite Hc. simpl.
  destruct (gin.status (gin.Writer ctx) =? code) eqn:Hs; simpl; [ | done].
  by apply Z.eqb_eq in Hs.
Qed.

Lemma JSON_keeps code obj ctx :
  gin.request_id (gin.JSON code obj ctx) = gin.request_id ctx
  ∧ gin.header (gin.JSON code obj ctx) = gin.header ctx
  ∧ gin.Errors (gin.JSON code obj ctx) = gin.Errors ctx
  ∧ gin.aborted (gin.JSON code obj ctx) = gin.aborted ctx.
Proof. done. Qed.

(** What [handleServiceError] sends, for any error at all: one of four
    statuses, with an error envelope made by the mapper. *)
Lemma handleServiceError_sends timestamp ctx err mapper :
  ∃ statusCode code details,
    handlers.handleServiceError timestamp ctx err mapper
    = gin.JSON statusCode
        (fst (response.Mapper_Error mapper timestamp code
                (response.StatusToMessage statusCode) details statusCode))
        ctx
    ∧ (statusCode = 400 ∨ statusCode = 409 ∨ statusCode = 404 ∨ statusCode = 500).
Proof.
  unfold handlers.handleServiceError.
  destruct (_ || _); [eexists _, _, _; split; [reflexivity | tauto] | ].
  destruct (errors.Is err ErrNameExists);
    [eexists _, _, _; split; [reflexivity | tauto] | ].
  destruct (errors.Is err ErrNotFound);
    eexists _, _, _; (split; [reflexivity | tauto]).
Qed.

Lemma Is_wrapError msg err target :
  target ≠ wrapError msg err ->
  errors.Is (wrapError msg err) target = errors.Is err target.
Proof.
  intros Hne. simpl. rewrite bool_decide_eq_false_2; [done | ].
  intros Heq. by apply Hne.
Qed.

(** X8. Wrapping an error with [%w], any number of times, does not
    change the status and the code [handleServiceError] answers with:
    [errors.Is] looks through the wrapping. *)
Theorem handleServiceError_through_wrapping timestamp ctx err msg mapper :
  let sent e := handlers.handleServiceError timestamp ctx e mapper in
  gin.status (gin.Writer (sent (wrapError msg err)))
  = gin.status (gin.Writer (sent err))
  ∧ ((λ r, response.Code <$> response.Error r)
       <$> gin.body (gin.Writer (sent (wrapError msg err))))
    = ((λ r, response.Code <$> response.Error r)
         <$> gin.body (gin.Writer (sent err)))
  ∧ ((λ r, response.Message r)
       <$> gin.body (gin.Writer (sent (wrapError msg err))))
    = ((λ r, response.Message r) <$> gin.body (gin.Writer (sent err))).
Proof.
  cbn zeta. unfold handlers.handleServiceError.
  rewrite !Is_wrapError by discriminate.
  destruct (_ || _); [ | destruct (errors.Is err ErrNameExists);
                         [ | destruct (errors.Is err ErrNotFound)]];
    cbn -[gin.WriteHeader]; rewrite ?fmap_app; done.
Qed.

(** X9. [GET /modules/:id] on a context nothing has been written to: an
    id [strconv.Atoi] rejects is answered 500 [INTERNAL_ERROR], an id
    with no record 404 [NOT_FOUND], an id with a record 200 with the
    record as data; one envelope is written in each case. *)
Theorem GetModuleById_handler_outcomes timestamp id ctx st :
  gin.written (gin.Writer ctx) = false ->
  let ctx' := handlers.GetModuleById timestamp id ctx st in
  let mapper := response.NewResponseMapper (gin.request_id ctx) in
  (strconv.Atoi id = None ->
   gin.status (gin.Writer ctx') = 500
   ∧ gin.body (gin.Writer ctx')
     = gin.body (gin.Writer ctx)
       ++ [fst (response.Mapper_Error mapper timestamp "INTERNAL_ERROR"
                  "An unexpected error occurred" None 500)])
  ∧ (∀ k, strconv.Atoi id = Some k -> data (repo st) !! k = None ->
       gin.status (gin.Writer ctx') = 404
       ∧ gin.body (gin.Writer ctx')
         = gin.body (gin.Writer ctx)
           ++ [fst (response.Mapper_Error mapper timestamp "NOT_FOUND"
                      "Resource not found" None 404)])
  ∧ (∀ k p, strconv.Atoi id = Some k -> data (repo st) !! k = Some p ->
       gin.status (gin.Writer ctx') = 200
       ∧ gin.body (gin.Writer ctx')
         = gin.body (gin.Writer ctx)
           ++ [fst (response.Mapper_Success mapper timestamp
                      (Some (response.ofModuleResponse
                               (service.toResponse (deref (heap st) p))))
                      "Operation completed successfully" 200)]).
Proof.
  intros Hw. cbn zeta.
  unfold handlers.GetModuleById, service.GetModuleById, repository.GetModuleById.
  split; [ | split].
  - intros ->. cbn [fst snd].
    destruct (JSON_unwritten 500
                (fst (response.Mapper_Error
                        (response.NewResponseMapper (gin.request_id ctx)) timestamp
                        "INTERNAL_ERROR" "An unexpected error occurred" None 500))
                ctx Hw ltac:(lia) eq_refl) as (Hs & Hb & _).
    split; [exact Hs | exact Hb].
  - intros k -> ->.
    destruct (JSON_unwritten 404
                (fst (response.Mapper_Error
                        (response.NewResponseMapper (gin.request_id ctx)) timestamp
                        "NOT_FOUND" "Resource not found" None 404))
                ctx Hw ltac:(lia) eq_refl) as (Hs & Hb & _).
    split; [exact Hs | exact Hb].
  - intros k p -> ->.
    destruct (JSON_unwritten 200
                (fst (response.Mapper_Success
                        (response.NewResponseMapper (gin.request_id ctx)) timestamp
                        (Some (response.ofModuleResponse
                                 (service.toResponse (deref (heap st) p))))
                        "Operation completed successfully" 200))
                ctx Hw ltac:(lia) eq_refl) as (Hs & Hb & _).
    split; [exact Hs | exact Hb].
Qed.

Section HandlerExtras.
Context `{unicode.CaseTable}.

(** The three ways [handlers.CreateModule] ends. *)
Lemma CreateModule_handler_cases timestamp now b ctx st :
  (∃ details, b = handlers.bindFailed details
     ∧ handlers.CreateModule timestamp now b ctx st
       = ((gin.JSON 400
             (fst (response.Mapper_Error
                     (response.NewResponseMapper (gin.request_id ctx)) timestamp
                     "VALIDATION_ERROR" "Invalid request parameters"
                     (Some details) 400)) ctx, gin.returned), st))
  ∨ (∃ request e, b = handlers.bindOk request
       ∧ service.CreateModule now request st = ((None, Some e), st)
       ∧ (e = ErrNameRequired ∨ e = ErrNameLength ∨ e = ErrNameExists
          ∨ e = ErrDescriptionLength)
       ∧ handlers.CreateModule timestamp now b ctx st
         = ((handlers.handleServiceError timestamp ctx e
               (response.NewResponseMapper (gin.request_id ctx)), gin.returned),
            st))
  ∨ (∃ request resp st', b = handlers.bindOk request
       ∧ service.CreateModule now request st = ((Some resp, None), st')
       ∧ handlers.CreateModule timestamp now b ctx st
         = ((gin.JSON 201
               (fst (response.Mapper_Success
                       (response.NewResponseMapper (gin.request_id ctx)) timestamp
                       (Some (response.ofModuleResponse resp))
                       "Resource created successfully" 201))
               (gin.Header "Location"
                  ("/api/v1/modules/" ++ pretty (Response_ID resp)) ctx),
             gin.returned), st')).
Proof.
  destruct b as [details | request].
  - left. by exists details.
  - right.
    destruct (CreateModule_cases now request st)
      as [(e & Herr & He) | (Hb & Hl & Hex & Hd)].
    + left. exists request, e. repeat split; try done.
      unfold handlers.CreateModule. by rewrite Herr.
    + right. pose proof (CreateModule_accepted now request st Hb Hl Hex Hd) as Hrun.
      eexists request, _, _. split; [reflexivity | split; [exact Hrun | ]].
      unfold handlers.CreateModule. by rewrite Hrun.
Qed.


(** X11. The id in the [Location] header of a 201 answer resolves: a
    [GET] with that id on the store the creation left answers 200 with
    the module the creation returned. *)
Theorem Location_resolves timestamp now request ctx st resp st1 timestamp' ctx' :
  minInt <= autoIncrementID (repo st) <= maxInt ->
  gin.written (gin.Writer ctx') = false ->
  service.CreateModule now request st = ((Some resp, None), st1) ->
  gin.header (fst (fst (handlers.CreateModule timestamp now
                          (handlers.bindOk request) ctx st)))
    !! "Location"%string
  = Some ("/api/v1/modules/" ++ pretty (Response_ID resp))%string
  ∧ snd (handlers.CreateModule timestamp now (handlers.bindOk request) ctx st) = st1
  ∧ gin.status (gin.Writer (handlers.GetModuleById timestamp'
                              (pretty (Response_ID resp)) ctx' st1)) = 200
  ∧ gin.body (gin.Writer (handlers.GetModuleById timestamp'
                            (pretty (Response_ID resp)) ctx' st1))
    = gin.body (gin.Writer ctx')
      ++ [fst (response.Mapper_Success
                 (response.NewResponseMapper (gin.request_id ctx')) timestamp'
                 (Some (response.ofModuleResponse resp))
                 "Operation completed successfully" 200)].
Proof.
  intros Hrange Hw Hsvc.
  assert (Hget : service.GetModuleById (pretty (Response_ID resp)) st1
                 = (Some resp, None)).
  { destruct (CreateModule_cases now request st)
      as [(e & Herr & _) | (Hb & Hl & He & Hd)].
    { rewrite Herr in Hsvc. discriminate. }
    rewrite (CreateModule_accepted now request st Hb Hl He Hd) in Hsvc.
    injection Hsvc as <- <-. cbn [Response_ID].
    unfold service.GetModuleById, repository.GetModuleById.
    rewrite Atoi_Itoa by done. cbn [heap repo data].
    by rewrite lookup_insert_eq, deref_insert_eq. }
  unfold handlers.CreateModule. rewrite Hsvc. cbn [fst snd].
  split; [apply lookup_insert_eq | split; [reflexivity | ]].
  unfold handlers.GetModuleById. rewrite Hget. cbn [fst snd fmap option_fmap option_map].
  destruct (JSON_unwritten 200
              (fst (response.Mapper_Success
                      (response.NewResponseMapper (gin.request_id ctx')) timestamp'
                      (Some (response.ofModuleResponse resp))
                      "Operation completed successfully" 200)) ctx' Hw
              ltac:(lia) eq_refl) as (Hs & Hb & _).
  split; [exact Hs | exact Hb].
Qed.

End HandlerExtras.

(** X12. [extractValidationErrors] reports every field violation once:
    under each field name it lists the messages of that field's
    violations, in the order the validator gave them, and it has no entry
    for a field without violation; an error that is not a
    [validator.ValidationErrors] gives the empty map. The handler sends
    the map as the details of a 400 [VALIDATION_ERROR] answer and leaves
    the store alone. *)
Theorem extractValidationErrors_groups verr field :
  handlers.extractValidationErrors (handlers.ValidationErrors verr) !! field
  = match (λ fe, handlers.tagMessage (handlers.Tag fe))
            <$> filter (λ fe, handlers.Field fe = field) verr with
    | [] => None
    | msgs => Some msgs
    end
  ∧ (∀ err, handlers.extractValidationErrors (handlers.otherBindError err) = ∅)
  ∧ ∀ `{unicode.CaseTable} timestamp now ctx st err,
      handlers.CreateModule timestamp now (handlers.bindResult (inl err)) ctx st
      = ((gin.JSON 400
            (fst (response.Mapper_Error
                    (response.NewResponseMapper (gin.request_id ctx)) timestamp
                    "VALIDATION_ERROR" "Invalid request parameters"
                    (Some (handlers.extractValidationErrors err)) 400))
            ctx, gin.returned), st).
Proof.
  split; [ | split; [reflexivity | reflexivity]].
  unfold handlers.extractValidationErrors.
  induction verr as [ | fe verr IH] using rev_ind; [reflexivity | ].
  rewrite foldl_app, filter_app, fmap_app. simpl foldl.
  destruct (decide (handlers.Field fe = field)) as [Hf | Hf].
  - rewrite Hf, lookup_insert_eq, IH.
    rewrite filter_cons_True by done. rewrite filter_nil. simpl.
    destruct ((λ fe0, handlers.tagMessage (handlers.Tag fe0))
                <$> filter (λ fe0, handlers.Field fe0 = field) verr); reflexivity.
  - rewrite lookup_insert_ne by done. rewrite IH.
    rewrite filter_cons_False by done. rewrite filter_nil. simpl.
    by rewrite app_nil_r.
Qed.

Section ChainExtras.
Context `{unicode.CaseTable}.

Lemma GetModuleById_handler_sends timestamp id ctx st :
  ∃ code env,
    handlers.GetModuleById timestamp id ctx st = gin.JSON code env ctx
    ∧ response.RequestId (response.Meta env) = gin.request_id ctx
    ∧ 0 < code ∧ gin.bodyAllowedForStatus code = true.
Proof.
  unfold handlers.GetModuleById.
  destruct (service.GetModuleById id st) as [r [e | ]].
  - destruct (handleServiceError_sends timestamp ctx e
                (response.NewResponseMapper (gin.request_id ctx)))
      as (code & c & d & -> & Hcode).
    eexists _, _. split; [reflexivity | split; [reflexivity | ]].
    destruct Hcode as [-> | [-> | [-> | ->]]]; by split.
  - eexists _, _. split; [reflexivity | split; [reflexivity | by split]].
Qed.

Lemma CreateModule_handler_sends timestamp now b ctx st :
  ∃ code env ctx0,
    fst (handlers.CreateModule timestamp now b ctx st)
    = (gin.JSON code env ctx0, gin.returned)
    ∧ response.RequestId (response.Meta env) = gin.request_id ctx
    ∧ 0 < code ∧ gin.bodyAllowedForStatus code = true
    ∧ (ctx0 = ctx ∨ ∃ v, ctx0 = gin.Header "Location" v ctx).
Proof.
  destruct (CreateModule_handler_cases timestamp now b ctx st)
    as [(details & -> & Hrun) | [(request & e & -> & Hsvc & He & Hrun)
                                | (request & resp & st1 & -> & Hsvc & Hrun)]];
    rewrite Hrun; cbn [fst].
  - eexists _, _, _. split; [reflexivity | ]. repeat split; auto.
  - destruct (handleServiceError_sends timestamp ctx e
                (response.NewResponseMapper (gin.request_id ctx)))
      as (code & c & d & -> & Hcode).
    eexists _, _, _. split; [reflexivity | split; [reflexivity | ]].
    destruct Hcode as [-> | [-> | [-> | ->]]]; repeat split; auto.
  - eexists _, _, _. split; [reflexivity | ]. repeat split; eauto.
Qed.

(** X13. The request id through the whole chain. On a context the engine
    has just made (nothing written, no error attached), both routes
    answer with exactly one envelope; its [meta.requestId], the
    [X-Request-Id] response header and the id kept in the context are all
    the inbound [X-Request-Id] header, or the fresh UUID when that header
    is empty or absent; the exception middleware prints nothing and adds
    nothing of its own. *)
Theorem request_id_echoed uuid inbound tsMiddleware tsHandler c :
  gin.written (gin.Writer c) = false ->
  gin.body (gin.Writer c) = [] ->
  gin.Errors c = [] ->
  let rid := if String.eqb inbound "" then uuid else inbound in
  let answered (r : gin.Context * list string) :=
    gin.request_id (fst r) = rid
    ∧ gin.header (fst r) !! "X-Request-Id"%string = Some rid
    ∧ snd r = []
    ∧ ∃ env, gin.body (gin.Writer (fst r)) = [env]
             ∧ response.RequestId (response.Meta env) = rid in
  (∀ id st, answered (router.GET_module uuid inbound tsMiddleware tsHandler id st c))
  ∧ (∀ now b st,
       answered (fst (router.POST_modules uuid inbound tsMiddleware tsHandler now b st c))).
Proof.
  intros Hw Hbody Herrors. cbn zeta.
  set (rid := if String.eqb inbound "" then uuid else inbound).
  set (c1 := gin.Header "X-Request-Id" rid (gin.Set_request_id rid c)).
  assert (Hw1 : gin.written (gin.Writer c1) = false) by exact Hw.
  assert (Hh1 : gin.header c1 !! "X-Request-Id"%string = Some rid)
    by apply lookup_insert_eq.
  split.
  - intros id st. unfold router.GET_module, middleware.RequestIDHandler.
    fold rid. fold c1. unfold middleware.ExceptionHandler.
    destruct (GetModuleById_handler_sends tsHandler id c1 st)
      as (code & env & -> & Hrid & Hcode & Hallowed).
    destruct (JSON_unwritten code env c1 Hw1 Hcode Hallowed) as (_ & Hb & _).
    change (gin.Errors (gin.JSON code env c1)) with (gin.Errors c).
    rewrite Herrors. cbn [fst snd].
    repeat split; try done.
    exists env. split; [ | exact Hrid].
    rewrite Hb. change (gin.body (gin.Writer c1)) with (gin.body (gin.Writer c)).
    by rewrite Hbody.
  - intros now b st. unfold router.POST_modules, middleware.RequestIDHandler.
    fold rid. fold c1. cbn [fst]. unfold middleware.ExceptionHandler.
    destruct (CreateModule_handler_sends tsHandler now b c1 st)
      as (code & env & c0 & -> & Hrid & Hcode & Hallowed & Hc0).
    assert (Hc0' : gin.written (gin.Writer c0) = false
                   ∧ gin.body (gin.Writer c0) = []
                   ∧ gin.Errors c0 = []
                   ∧ gin.request_id c0 = rid
                   ∧ gin.header c0 !! "X-Request-Id"%string = Some rid).
    { destruct Hc0 as [-> | [v ->]]; repeat split; try done.
      simpl. by rewrite lookup_insert_ne. }
    destruct Hc0' as (Hw0 & Hb0 & He0 & Hr0 & Hh0).
    destruct (JSON_unwritten code env c0 Hw0 Hcode Hallowed) as (_ & Hb & _).
    change (gin.Errors (gin.JSON code env c0)) with (gin.Errors c0).
    rewrite He0. cbn [fst snd].
    repeat split; try done.
    exists env. split; [ | exact Hrid].
    by rewrite Hb, Hb0.
Qed.

End ChainExtras.

(* ===================================================================== *)
(** ** Uniqueness of names                                                *)
(* ===================================================================== *)

Lemma lor_below_RuneSelf a b :
  0 <= a < utf8.RuneSelf -> 0 <= b < utf8.RuneSelf ->
  (utf8.RuneSelf <=? Z.lor a b) = false.
Proof.
  unfold utf8.RuneSelf. intros Ha Hb. apply Z.leb_gt.
  destruct (decide (Z.lor a b = 0)) as [-> | Hne]; [lia | ].
  assert (Hpos : 0 < Z.lor a b).
  { pose proof (proj2 (Z.lor_nonneg a b) ltac:(lia)). lia. }
  change 128 with (2 ^ 7). apply Z.log2_lt_pow2; [exact Hpos | ].
  rewrite Z.log2_lor by lia.
  assert (Hla : Z.log2 a < 7).
  { destruct (decide (a = 0)) as [-> | ?]; [done | ].
    apply Z.log2_lt_pow2; lia. }
  assert (Hlb : Z.log2 b < 7).
  { destruct (decide (b = 0)) as [-> | ?]; [done | ].
    apply Z.log2_lt_pow2; lia. }
  lia.
Qed.

Lemma byteOf_nonneg c : 0 <= byteOf c.
Proof. unfold byteOf. lia. Qed.

Section CaseFolding.
Context `{unicode.CaseTable}.

Lemma equalFoldASCII_cons fuel a s b t i :
  0 <= i ->
  strings.equalFoldASCII fuel s t i = inl true ->
  strings.equalFoldASCII fuel (String a s) (String b t) (i + 1) = inl true.
Proof.
  revert i. induction fuel as [ | fuel IH]; intros i Hi;
    cbn [strings.equalFoldASCII].
  - rewrite !len_cons. intros [= Hl]. f_equal. apply Z.eqb_eq in Hl.
    apply Z.eqb_eq. lia.
  - rewrite !len_cons, !byteAt_cons by done.
    replace (i + 1 <? len s + 1) with (i <? len s)
      by (destruct (i <? len s) eqn:E; symmetry;
          [apply Z.ltb_lt; apply Z.ltb_lt in E | apply Z.ltb_ge; apply Z.ltb_ge in E]; lia).
    replace (i + 1 <? len t + 1) with (i <? len t)
      by (destruct (i <? len t) eqn:E; symmetry;
          [apply Z.ltb_lt; apply Z.ltb_lt in E | apply Z.ltb_ge; apply Z.ltb_ge in E]; lia).
    destruct (_ && _).
    + destruct (utf8.RuneSelf <=? _); [discriminate | ].
      destruct (byteAt t i =? byteAt s i); [apply IH; lia | ].
      destruct (if byteAt t i <? byteAt s i then _ else _) as [sr tr].
      destruct (strings.isUpperOf sr tr); [apply IH; lia | discriminate].
    + intros [= Hl]. f_equal. apply Z.eqb_eq in Hl. apply Z.eqb_eq. lia.
Qed.

Lemma isUpperOf_lt x y : strings.isUpperOf x y = true -> x < y.
Proof.
  unfold strings.isUpperOf. intros Hu.
  apply andb_true_iff in Hu as [_ Hy]. apply Z.eqb_eq in Hy. lia.
Qed.

Lemma equalFoldASCII_sameUpToASCIICase s t :
  sameUpToASCIICase s t = true ->
  strings.equalFoldASCII (String.length s) s t 0 = inl true.
Proof.
  revert t. induction s as [ | a s IH]; intros [ | b t];
    cbn [sameUpToASCIICase strings.equalFoldASCII String.length];
    try discriminate.
  - reflexivity.
  - intros Hsame.
    apply andb_true_iff in Hsame as [Hsame Hrest].
    apply andb_true_iff in Hsame as [Hsame Hcase].
    apply andb_true_iff in Hsame as [Ha Hb].
    apply Z.ltb_lt in Ha, Hb.
    rewrite !len_cons.
    assert (H0s : (0 <? len s + 1) = true)
      by (apply Z.ltb_lt; pose proof (len_nonneg s); lia).
    assert (H0t : (0 <? len t + 1) = true)
      by (apply Z.ltb_lt; pose proof (len_nonneg t); lia).
    rewrite H0s, H0t. cbn [andb].
    change (byteAt (String a s) 0) with (byteOf a).
    change (byteAt (String b t) 0) with (byteOf b).
    rewrite lor_below_RuneSelf
      by (split; [apply byteOf_nonneg | done]).
    pose proof (equalFoldASCII_cons (String.length s) a s b t 0 ltac:(lia)
                  (IH t Hrest)) as Hnext.
    destruct (byteOf b =? byteOf a) eqn:Heq; [exact Hnext | ].
    cbn [orb] in Hcase. apply orb_true_iff in Hcase as [Hu | Hu].
    + pose proof (isUpperOf_lt _ _ Hu) as Hlt.
      assert (Hc : (byteOf b <? byteOf a) = false) by (apply Z.ltb_ge; lia).
      rewrite Hc, Hu. exact Hnext.
    + pose proof (isUpperOf_lt _ _ Hu) as Hlt.
      assert (Hc : (byteOf b <? byteOf a) = true) by (by apply Z.ltb_lt).
      rewrite Hc, Hu. exact Hnext.
Qed.

Lemma sameUpToASCIICase_len s t :
  sameUpToASCIICase s t = true -> len t = len s.
Proof.
  revert t. induction s as [ | a s IH]; intros [ | b t]; simpl; try discriminate.
  - reflexivity.
  - intros Hsame. apply andb_true_iff in Hsame as [_ Hrest].
    rewrite !len_cons. by rewrite (IH t Hrest).
Qed.

(** X14. ASCII names that differ only in the case of their letters
    conflict: once one is persisted, a request with the other, if it is
    not blank, gets [ErrNameExists] and the handler answers 409; this
    holds for every Unicode case table. *)
Theorem ascii_case_conflict now1 dto1 st resp1 st1 now2 dto2 :
  autoIncrementID (repo st) ≠ 0 ->
  service.CreateModule now1 dto1 st = ((Some resp1, None), st1) ->
  sameUpToASCIICase (Request_Name dto1) (Request_Name dto2) = true ->
  strings.TrimSpace (Request_Name dto2) ≠ EmptyString ->
  strings.EqualFold (Request_Name dto1) (Request_Name dto2) = true
  ∧ service.CreateModule now2 dto2 st1 = ((None, Some ErrNameExists), st1)
  ∧ ∀ timestamp ctx,
      gin.written (gin.Writer ctx) = false ->
      gin.status (gin.Writer (fst (fst (handlers.CreateModule timestamp now2
                                          (handlers.bindOk dto2) ctx st1)))) = 409.
Proof.
  intros Hid Hfirst Hsame Hb2.
  assert (Hfold : strings.EqualFold (Request_Name dto1) (Request_Name dto2) = true).
  { unfold strings.EqualFold.
    by rewrite (equalFoldASCII_sameUpToASCIICase _ _ Hsame). }
  destruct (CreateModule_persisted _ _ _ _ _ Hfirst) as (p & Hp & Hn & _).
  assert (He : IsModuleNameExists (Request_Name dto2) 0 st1 = (true, None)).
  { eapply IsModuleNameExists_held; [exact Hp | by rewrite Hn | exact Hid]. }
  destruct (CreateModule_cases now1 dto1 st) as [(e & Herr & _) | (_ & Hl & _)].
  { rewrite Herr in Hfirst. discriminate. }
  assert (Hrun : service.CreateModule now2 dto2 st1
                 = ((None, Some ErrNameExists), st1)).
  { unfold service.CreateModule.
    rewrite (eqb_empty_false _ Hb2), (sameUpToASCIICase_len _ _ Hsame), Hl.
    by rewrite He. }
  split; [exact Hfold | split; [exact Hrun | ]].
  intros timestamp ctx Hw. unfold handlers.CreateModule. rewrite Hrun. cbn [fst].
  apply (JSON_unwritten 409); [exact Hw | lia | reflexivity].
Qed.

(** One request keeps the invariants of a store. *)
Lemma CreateModule_keeps_invariants now dto st :
  idsConsistent st -> namesUnique st ->
  1 <= autoIncrementID (repo st) < maxInt ->
  let st' := snd (service.CreateModule now dto st) in
  idsConsistent st' ∧ namesUnique st'
  ∧ autoIncrementID (repo st) <= autoIncrementID (repo st')
    <= autoIncrementID (repo st) + 1.
Proof.
  intros Hinv Huniq Hc. cbn zeta.
  destruct (CreateModule_cases now dto st) as [(e & Herr & _) | (Hb & Hl & He & Hd)].
  { rewrite Herr. cbn [snd]. split; [exact Hinv | split; [exact Huniq | lia]]. }
  rewrite (CreateModule_accepted now dto st Hb Hl He Hd). cbn [snd].
  set (p := fresh (dom (heap st))).
  set (v := {| ID := autoIncrementID (repo st) |}).
  assert (Hwrap : wrapInt (autoIncrementID (repo st) + 1) = autoIncrementID (repo st) + 1)
    by (apply wrapInt_in_range; unfold minInt, maxInt in *; lia).
  assert (Hold : ∀ k q, data (repo st) !! k = Some q ->
            q ≠ p ∧ k ≠ autoIncrementID (repo st)
            ∧ deref (<[p := v]> (heap st)) q = deref (heap st) q).
  { intros k q Hk. destruct (Hinv k q Hk) as ([x Hx] & _ & Hr).
    assert (Hne : q ≠ p) by (intros ->; unfold p in Hx; by rewrite fresh_unallocated in Hx).
    repeat split; [exact Hne | lia | ]. by apply deref_insert_ne. }
  split; [ | split].
  - intros k q. cbn [heap repo data autoIncrementID]. rewrite Hwrap.
    destruct (decide (autoIncrementID (repo st) = k)) as [<- | Hk].
    + rewrite lookup_insert_eq. intros [= <-].
      rewrite lookup_insert_eq, deref_insert_eq.
      repeat split; [by eexists | lia | lia].
    + rewrite lookup_insert_ne by done. intros Hq.
      destruct (Hold k q Hq) as (Hne & _ & Hderef).
      destruct (Hinv k q Hq) as ([x Hx] & Hid & Hr).
      rewrite lookup_insert_ne by done. rewrite Hderef.
      repeat split; [by eexists | done | lia | lia].
  - intros k1 p1 k2 p2. cbn [heap repo data].
    destruct (decide (autoIncrementID (repo st) = k2)) as [<- | Hk2].
    + rewrite lookup_insert_eq.
      destruct (decide (autoIncrementID (repo st) = k1)) as [<- | Hk1]; [lia | ].
      rewrite lookup_insert_ne by done. intros H1 [= <-] Hlt.
      destruct (Hold k1 p1 H1) as (_ & _ & ->).
      rewrite deref_insert_eq. change (Name v) with (Request_Name dto).
      unfold IsModuleNameExists in He. cbn [fst] in He.
      destruct (strings.EqualFold (Name (deref (heap st) p1)) (Request_Name dto))
        eqn:Hfold; [ | reflexivity].
      exfalso. apply not_true_iff_false in He. apply He.
      apply existsb_exists. exists (k1, p1). split.
      * by apply list_elem_of_In, elem_of_map_to_list.
      * rewrite Hfold. simpl. apply negb_true_iff, Z.eqb_neq.
        destruct (Hinv k1 p1 H1) as (_ & _ & Hr). lia.
    + intros H1 H2 Hlt. rewrite lookup_insert_ne in H2 by done.
      destruct (decide (autoIncrementID (repo st) = k1)) as [<- | Hk1].
      * destruct (Hinv k2 p2 H2) as (_ & _ & Hr). lia.
      * rewrite lookup_insert_ne in H1 by done.
        destruct (Hold k1 p1 H1) as (_ & _ & ->).
        destruct (Hold k2 p2 H2) as (_ & _ & ->).
        by eapply Huniq.
  - cbn [repo autoIncrementID]. rewrite Hwrap. lia.
Qed.

Lemma initialStore_invariants :
  idsConsistent initialStore ∧ namesUnique initialStore.
Proof.
  split.
  - intros k p Hk. simpl in Hk. by rewrite lookup_empty in Hk.
  - intros k1 p1 k2 p2 Hk. simpl in Hk. by rewrite lookup_empty in Hk.
Qed.

(** X15. The invariants of the service. After any sequence of fewer
    than 2^63 - 1 creation requests served from a new repository,
    accepted or refused: every key is the [ID] of its record, within
    [1, autoIncrementID); the counter is at least 1 and at most one more
    than the number of requests; and no stored name equal-folds with the
    name of a record stored later. *)
Theorem service_invariants reqs :
  Z.of_nat (length reqs) < maxInt ->
  let st := runRequests reqs initialStore in
  idsConsistent st ∧ namesUnique st
  ∧ 1 <= autoIncrementID (repo st) <= Z.of_nat (length reqs) + 1.
Proof.
  cbn zeta. unfold runRequests.
  induction reqs as [ | r reqs IH] using rev_ind; intros Hlen.
  - destruct initialStore_invariants as [Hi Hu].
    split; [exact Hi | split; [exact Hu | simpl; lia]].
  - rewrite length_app in Hlen. simpl in Hlen.
    destruct IH as (Hinv & Huniq & Hc); [lia | ].
    rewrite foldl_app. simpl foldl.
    destruct (CreateModule_keeps_invariants (fst r) (snd r) _ Hinv Huniq
                ltac:(unfold maxInt in *; lia)) as (Hinv' & Huniq' & Hc').
    rewrite length_app. simpl length.
    split; [exact Hinv' | split; [exact Huniq' | lia]].
Qed.

End CaseFolding.

(** X16. The exception middleware never takes back what the handlers
    wrote: the body it leaves starts with theirs and has at most one
    more envelope, a failure envelope; it adds none, prints nothing and
    returns their context unchanged when they returned without attaching
    an error; and once the header has gone out the status stays what it
    was. *)
Theorem ExceptionHandler_appends timestamp next ctx :
  let ctx1 := fst (next ctx) in
  let out := fst (middleware.ExceptionHandler timestamp next ctx) in
  (∃ extra, gin.body (gin.Writer out) = gin.body (gin.Writer ctx1) ++ extra
            ∧ (length extra <= 1)%nat
            ∧ ∀ env, env ∈ extra ->
                response.Success env = false ∧ response.Data env = None)
  ∧ (snd (next ctx) = gin.returned -> gin.Errors ctx1 = [] ->
     middleware.ExceptionHandler timestamp next ctx = (ctx1, []))
  ∧ (gin.written (gin.Writer ctx1) = true ->
     gin.status (gin.Writer out) = gin.status (gin.Writer ctx1)).
Proof.
  cbn zeta. unfold middleware.ExceptionHandler.
  assert (HJ : ∀ code env c,
            response.Success env = false -> response.Data env = None ->
            (∃ extra, gin.body (gin.Writer (gin.JSON code env c))
                      = gin.body (gin.Writer c) ++ extra
                      ∧ (length extra <= 1)%nat
                      ∧ ∀ e, e ∈ extra ->
                          response.Success e = false ∧ response.Data e = None)
            ∧ (gin.written (gin.Writer c) = true ->
               gin.status (gin.Writer (gin.JSON code env c)) = gin.status (gin.Writer c))).
  { intros code env c Hs Hd. split.
    - unfold gin.JSON. destruct (gin.bodyAllowedForStatus code); simpl.
      + exists [env]. split; [ | split; [simpl; lia | ]].
        * unfold gin.WriteHeader.
          destruct (_ && _); [destruct (gin.written _) | ]; reflexivity.
        * intros e He. apply list_elem_of_singleton in He as ->. by split.
      + exists []. split; [ | split; [simpl; lia | ]].
        * rewrite app_nil_r. unfold gin.WriteHeader.
          destruct (_ && _); [destruct (gin.written _) | ]; reflexivity.
        * intros e He. by apply elem_of_nil in He.
    - intros Hw. unfold gin.JSON, gin.WriteHeader. rewrite Hw.
      destruct (_ && _); destruct (gin.bodyAllowedForStatus code); reflexivity. }
  destruct (next ctx) as [ctx1 [ | v]]; cbn [fst snd].
  - destruct (gin.Errors ctx1) as [ | err errs] eqn:He; cbn [fst].
    + split; [ | split; [done | done]].
      exists []. rewrite app_nil_r. split; [done | split; [simpl; lia | ]].
      intros e Hin. by apply elem_of_nil in Hin.
    + unfold middleware.handleError.
      destruct (HJ (if gin.status (gin.Writer ctx1) =? 200 then 500
                    else gin.status (gin.Writer ctx1))
                   (response.NewErrorResponse timestamp "INTERNAL_ERROR"
                      (response.StatusToMessage
                         (if gin.status (gin.Writer ctx1) =? 200 then 500
                          else gin.status (gin.Writer ctx1)))
                      (Some {[ "error"%string := [errors.Error err] ]})
                      (gin.request_id ctx))
                   ctx1 eq_refl eq_refl) as [Hb Hs].
      split; [exact Hb | split; [discriminate | exact Hs]].
  - destruct (HJ 500
                (response.NewErrorResponse timestamp "INTERNAL_ERROR"
                   (response.StatusToMessage 500) None (gin.request_id ctx))
                ctx1 eq_refl eq_refl) as [Hb Hs].
    split; [exact Hb | split; [discriminate | exact Hs]].
Qed.

(* ===================================================================== *)
(** ** Runs of the added properties                                       *)
(* ===================================================================== *)

Lemma inventoryStore_run :
  @service.CreateModule latinTable 100 (request "Inventory" "stock") initialStore
  = ((Some {| Response_ID := 1; Response_Name := "Inventory";
              Response_Description := "stock"; Response_IsActive := true;
              Response_CreatedAt := 100 |}, None), inventoryStore).
Proof. vm_compute. reflexivity. Qed.

Lemma inventoryStore_idsConsistent : idsConsistent inventoryStore.
Proof.
  destruct (@initialStore_invariants latinTable) as [Hi Hu].
  exact (proj1 (@CreateModule_keeps_invariants latinTable 100
                  (request "Inventory" "stock") initialStore Hi Hu
                  ltac:(by vm_compute))).
Qed.

Lemma same_name_conflict_witness :
  autoIncrementID (repo initialStore) ≠ 0
  ∧ @service.CreateModule latinTable 7 (request "Inventory" "again") inventoryStore
    = ((None, Some ErrNameExists), inventoryStore).
Proof.
  assert (Hid : autoIncrementID (repo initialStore) ≠ 0) by (vm_compute; discriminate).
  split; [exact Hid | ].
  exact (@same_name_conflict latinTable 100 (request "Inventory" "stock")
           initialStore _ inventoryStore 7 (request "Inventory" "again")
           Hid inventoryStore_run eq_refl).
Defined.

Lemma blank_name_required_witness :
  allAsciiSpace "     " = true
  ∧ @service.CreateModule latinTable 7 (request "     " "x") inventoryStore
    = ((None, Some ErrNameRequired), inventoryStore).
Proof.
  split; [reflexivity | ].
  exact (@blank_name_required latinTable 7 (request "     " "x") inventoryStore eq_refl).
Defined.

Lemma create_then_get_witness :
  minInt <= autoIncrementID (repo initialStore) <= maxInt
  ∧ service.GetModuleById "1" inventoryStore
    = (Some {| Response_ID := 1; Response_Name := "Inventory";
               Response_Description := "stock"; Response_IsActive := true;
               Response_CreatedAt := 100 |}, None).
Proof.
  assert (Hr : minInt <= autoIncrementID (repo initialStore) <= maxInt)
    by (vm_compute; split; discriminate).
  split; [exact Hr | ].
  exact (proj2 (@create_then_get latinTable 100 (request "Inventory" "stock")
                  initialStore _ inventoryStore Hr inventoryStore_run)
               "1"%string eq_refl).
Defined.

Lemma existing_record_preserved_witness :
  idsConsistent inventoryStore
  ∧ service.GetModuleById "1"
      (snd (@service.CreateModule latinTable 7 (request "Billing" "") inventoryStore))
    = (Some {| Response_ID := 1; Response_Name := "Inventory";
               Response_Description := "stock"; Response_IsActive := true;
               Response_CreatedAt := 100 |}, None).
Proof.
  split; [exact inventoryStore_idsConsistent | ].
  exact (@existing_record_preserved latinTable 7 (request "Billing" "")
           inventoryStore "1"%string _ inventoryStore_idsConsistent eq_refl).
Defined.

Lemma successive_ids_witness :
  minInt <= autoIncrementID (repo initialStore) < maxInt
  ∧ Response_ID {| Response_ID := 2; Response_Name := "Billing";
                   Response_Description := ""; Response_IsActive := true;
                   Response_CreatedAt := 7 |}
    = Response_ID {| Response_ID := 1; Response_Name := "Inventory";
                     Response_Description := "stock"; Response_IsActive := true;
                     Response_CreatedAt := 100 |} + 1.
Proof.
  assert (Hr : minInt <= autoIncrementID (repo initialStore) < maxInt)
    by (vm_compute; split; [discriminate | reflexivity]).
  split; [exact Hr | ].
  refine (proj2 (@successive_ids latinTable 100 (request "Inventory" "stock")
                   initialStore _ inventoryStore 7 (request "Billing" "") _
                   (snd (@service.CreateModule latinTable 7 (request "Billing" "")
                           inventoryStore))
                   Hr inventoryStore_run _)).
  vm_compute. reflexivity.
Defined.

Lemma GetModuleById_handler_outcomes_witness :
  gin.written (gin.Writer (gin.newContext "rid")) = false
  ∧ strconv.Atoi "abc" = None
  ∧ gin.status (gin.Writer (handlers.GetModuleById "ts" "abc" (gin.newContext "rid")
                              inventoryStore)) = 500.
Proof.
  split; [reflexivity | split; [reflexivity | ]].
  exact (proj1 (proj1 (GetModuleById_handler_outcomes "ts" "abc" (gin.newContext "rid")
                         inventoryStore eq_refl) eq_refl)).
Defined.


Lemma Location_resolves_witness :
  minInt <= autoIncrementID (repo initialStore) <= maxInt
  ∧ gin.written (gin.Writer (gin.newContext "rid2")) = false
  ∧ gin.status (gin.Writer (handlers.GetModuleById "ts2" (pretty 1)
                              (gin.newContext "rid2") inventoryStore)) = 200.
Proof.
  assert (Hr : minInt <= autoIncrementID (repo initialStore) <= maxInt)
    by (vm_compute; split; discriminate).
  split; [exact Hr | split; [reflexivity | ]].
  exact (proj1 (proj2 (proj2
           (@Location_resolves latinTable "ts" 100 (request "Inventory" "stock")
              (gin.newContext "rid") initialStore _ inventoryStore "ts2"
              (gin.newContext "rid2") Hr eq_refl inventoryStore_run)))).
Defined.

Lemma request_id_echoed_witness :
  let c := gin.newContext "" in
  gin.written (gin.Writer c) = false ∧ gin.body (gin.Writer c) = []
  ∧ gin.Errors c = []
  ∧ gin.header (fst (router.GET_module "uuid-1" "" "ts" "ts" "1" inventoryStore c))
      !! "X-Request-Id"%string = Some "uuid-1"%string.
Proof.
  intros c. split; [reflexivity | split; [reflexivity | split; [reflexivity | ]]].
  exact (proj1 (proj2 (proj1 (@request_id_echoed latinTable "uuid-1" "" "ts" "ts" c
                                eq_refl eq_refl eq_refl)
                             "1"%string inventoryStore))).
Defined.

Lemma ascii_case_conflict_witness :
  autoIncrementID (repo initialStore) ≠ 0
  ∧ sameUpToASCIICase "Inventory" "iNVENTORY" = true
  ∧ strings.TrimSpace "iNVENTORY" ≠ EmptyString
  ∧ @service.CreateModule latinTable 7 (request "iNVENTORY" "") inventoryStore
    = ((None, Some ErrNameExists), inventoryStore).
Proof.
  assert (Hid : autoIncrementID (repo initialStore) ≠ 0) by (vm_compute; discriminate).
  assert (Hb : strings.TrimSpace "iNVENTORY" ≠ EmptyString) by (vm_compute; discriminate).
  split; [exact Hid | split; [reflexivity | split; [exact Hb | ]]].
  exact (proj1 (proj2 (@ascii_case_conflict latinTable 100 (request "Inventory" "stock")
                         initialStore _ inventoryStore 7 (request "iNVENTORY" "")
                         Hid inventoryStore_run eq_refl Hb))).
Defined.

Lemma service_invariants_witness :
  let reqs := [(100, request "Inventory" "stock"); (101, request "inventory" "dup");
               (102, request "Billing" "")] in
  Z.of_nat (length reqs) < maxInt
  ∧ @idsConsistent (@runRequests latinTable reqs initialStore).
Proof.
  intros reqs.
  assert (Hl : Z.of_nat (length reqs) < maxInt) by (vm_compute; reflexivity).
  split; [exact Hl | ].
  exact (proj1 (@service_invariants latinTable reqs Hl)).
Defined.
